(** * daily-go: the request dispatcher and the optional-field data model

    A shallow embedding of [daily.go], [models.go] and [requests.go].

    The package is a thin client: every operation of the client façade
    calls [request], which builds a URL, encodes a body, performs one call
    through the transport, classifies the status and decodes the answer.
    The record types of [models.go] and [requests.go] carry no code of their
    own: what they mean on the wire is decided by their field types and
    their [json:"..."] tags, which [encoding/json] reads by reflection.
    The embedding follows that: a Go type is a descriptor ([ty]), a struct
    declaration is transcribed field by field with its tag, and [marshal] and
    [unmarshal] interpret descriptors the way [encoding/json] documents it.

    What the Go standard library does at the level of text (parsing URLs,
    scanning and printing JSON text, formatting a [time.Time]) is kept as
    the fields of one class, [GoLibrary]; the constants and the type of the
    package's error file, which is not among the sources, are the fields of
    a second one, [ErrorsFile]. *)

From Stdlib Require Import ZArith List String Ascii Bool Lia DecimalString.
Import ListNotations.

#[local] Open Scope string_scope.
#[local] Open Scope Z_scope.
#[local] Set Warnings "-register-all".

(** ** Results of fallible library calls

    Go's [(value, error)] pairs: [inl v] is a value with a nil error,
    [inr msg] a non-nil error with the text of [err.Error()]. *)

Definition result (A : Type) : Type := (A + string)%type.

Notation "'try' x ':=' e 'else' err '=>' h 'in' k" :=
  (match e with inl x => k | inr err => h end)
  (at level 10, x name, err name, e at level 100, h at level 100,
   k at level 200, only parsing).

Fixpoint mapM {A B : Type} (f : A -> result B) (l : list A) : result (list B) :=
  match l with
  | [] => inl []
  | x :: l' =>
      match f x with
      | inr e => inr e
      | inl y =>
          match mapM f l' with
          | inr e => inr e
          | inl ys => inl (y :: ys)
          end
      end
  end.

(** ** Strings as byte sequences

    A Go string is a sequence of bytes; so is a [string] here.  The JSON
    encoder writes a string as valid UTF-8: every byte that does not start a
    well-formed encoding is written as U+FFFD.  [rune_width] is
    [utf8.DecodeRuneInString] restricted to what the encoder asks of it: the
    width of the encoding the string starts with, or [None] where the
    library answers [(RuneError, 1)]. *)

Definition byte_of (c : ascii) : Z := Z.of_N (N_of_ascii c).

Definition in_range (lo hi : Z) (c : ascii) : bool :=
  (lo <=? byte_of c) && (byte_of c <=? hi).

Definition continuation (c : ascii) : bool := in_range 0x80 0xBF c.

Definition rune_width (s : string) : option nat :=
  match s with
  | EmptyString => None
  | String c0 r0 =>
      let b0 := byte_of c0 in
      if b0 <? 0x80 then Some 1%nat
      else if in_range 0xC2 0xDF c0 then
        match r0 with
        | String c1 _ => if continuation c1 then Some 2%nat else None
        | _ => None
        end
      else if in_range 0xE0 0xEF c0 then
        match r0 with
        | String c1 (String c2 _) =>
            let lo := if b0 =? 0xE0 then 0xA0 else 0x80 in
            let hi := if b0 =? 0xED then 0x9F else 0xBF in
            if in_range lo hi c1 && continuation c2 then Some 3%nat else None
        | _ => None
        end
      else if in_range 0xF0 0xF4 c0 then
        match r0 with
        | String c1 (String c2 (String c3 _)) =>
            let lo := if b0 =? 0xF0 then 0x90 else 0x80 in
            let hi := if b0 =? 0xF4 then 0x8F else 0xBF in
            if in_range lo hi c1 && continuation c2 && continuation c3
            then Some 4%nat else None
        | _ => None
        end
      else None
  end.

(** U+FFFD in UTF-8. *)
Definition replacement_char : string :=
  String (ascii_of_N 0xEF) (String (ascii_of_N 0xBF) (String (ascii_of_N 0xBD) "")).

(** The string a Go string is read back as after it went through the JSON
    encoder; [skip] counts the bytes still to copy of the rune being read. *)
Fixpoint to_valid_utf8 (skip : nat) (s : string) : string :=
  match s with
  | EmptyString => EmptyString
  | String c rest =>
      match skip with
      | S k => String c (to_valid_utf8 k rest)
      | O =>
          match rune_width s with
          | Some w => String c (to_valid_utf8 (Nat.pred w) rest)
          | None => replacement_char ++ to_valid_utf8 0 rest
          end
      end
  end.

Definition valid_utf8 (s : string) : Prop := to_valid_utf8 0 s = s.

(** ** JSON values

    A JSON text after scanning.  A number written as an integer literal is
    [JInt]; any other number keeps its literal ([JFrac]), since the code of
    this package only ever decodes numbers into integer fields. *)

Inductive json : Type :=
| JNull
| JBool (b : bool)
| JInt (z : Z)
| JFrac (literal : string)
| JStr (s : string)
| JArr (elems : list json)
| JObj (members : list (string * json)).

(** ** [time.Time]

    An instant as the library keeps it: whole seconds since the Unix epoch,
    nanoseconds within the second, and the location it is displayed in
    (seconds east of UTC; the library keeps a pointer to a zone table). *)

Record Time : Type := mkTime {
  time_sec : Z;
  time_nsec : Z;
  time_loc : Z
}.

(** The value an int64 holds after an operation whose exact result is
    [z]: the arithmetic of Go wraps around. *)
Definition wrap64 (z : Z) : Z := (z + 2 ^ 63) mod 2 ^ 64 - 2 ^ 63.

(** [time.Unix(sec, nsec)], taken in UTC: any [nsec] is accepted and
    carried into the seconds ([/] truncates toward zero in Go, and the
    additions to the seconds are additions of int64). *)
Definition time_Unix (sec nsec : Z) : Time :=
  if (nsec <? 0) || (1000000000 <=? nsec) then
    let n := Z.quot nsec 1000000000 in
    let sec := wrap64 (sec + n) in
    let nsec := nsec - n * 1000000000 in
    if nsec <? 0 then mkTime (wrap64 (sec - 1)) (nsec + 1000000000) 0
    else mkTime sec nsec 0
  else mkTime sec nsec 0.

(** [t.Unix()], [t.UnixNano()] (without the wrap-around of the latter) and
    [t.In(loc)]. *)
Definition Time_Unix (t : Time) : Z := time_sec t.
Definition Time_UnixNano (t : Time) : Z := time_sec t * 1000000000 + time_nsec t.
Definition Time_In (t : Time) (loc : Z) : Time := mkTime (time_sec t) (time_nsec t) loc.

(** The zero [time.Time] is January 1, year 1, 00:00:00 UTC. *)
Definition zero_Time : Time := mkTime (-62135596800) 0 0.

(** ** Go types and values

    The types that occur in the declarations of [models.go] and
    [requests.go] and in the calls of [daily.go].  [TInt w] is a signed
    integer of [w] bits ([int] is taken as 64 bits); [TAny] is
    [interface{}] and [TMap] is [map[string]interface{}].  A field of a
    struct is its Go name, its type, and the two parts of its tag: the JSON
    key and whether it says [omitempty]. *)

Inductive ty : Type :=
| TString
| TBool
| TInt (w : Z)
| TTime
| TAny
| TMap
| TPtr (t : ty)
| TSlice (t : ty)
| TStruct (fs : fields)
with fields : Type :=
| FNil
| FCons (name : string) (t : ty) (key : string) (omitempty : bool) (rest : fields).

Scheme ty_fields_ind := Induction for ty Sort Prop
  with fields_ty_ind := Induction for fields Sort Prop.

Definition TInt64 : ty := TInt 64.
Definition TInt32 : ty := TInt 32.
Definition TGoInt : ty := TInt 64.

(** A struct declaration reads [struct { field ... ; field ... }]. *)
Definition field (name : string) (t : ty) (key : string) (omitempty : bool)
  : fields -> fields := FCons name t key omitempty.

Notation "'struct' '{' f1 ; .. ; fn '}'" := (TStruct (f1 (.. (fn FNil) ..))).

(** Values.  [VNil] is the nil pointer, slice, map or interface.  A pointer
    is modelled by what it points to: no value of this package is reachable
    through two pointers.  A value held in an [interface{}] after decoding is
    kept as the JSON it was decoded from, and so are the entries of a
    [map[string]interface{}], in the order of their keys; what else an
    [interface{}] can hold in Go (a channel, a function) is not a value
    here, and nothing is stated below of the encoding of such types. *)

Inductive val : Type :=
| VString (s : string)
| VBool (b : bool)
| VInt (z : Z)
| VTime (t : Time)
| VNil
| VPtr (v : val)
| VSlice (elems : list val)
| VStruct (flds : list val)
| VMap (entries : list (string * json))
| VAny (j : json).

(** The zero value of a type. *)
Fixpoint zero (t : ty) : val :=
  match t with
  | TString => VString ""
  | TBool => VBool false
  | TInt _ => VInt 0
  | TTime => VTime zero_Time
  | TAny | TMap | TPtr _ | TSlice _ => VNil
  | TStruct fs => VStruct (zero_fields fs)
  end
with zero_fields (fs : fields) : list val :=
  match fs with
  | FNil => []
  | FCons _ t _ _ rest => zero t :: zero_fields rest
  end.

(** The values of a type.  The integers of [w] bits are the only ones with
    a side condition. *)
Fixpoint has_type (t : ty) (v : val) {struct t} : Prop :=
  match t, v with
  | TString, VString _ => True
  | TBool, VBool _ => True
  | TInt w, VInt z => - 2 ^ (w - 1) <= z < 2 ^ (w - 1)
  | TTime, VTime _ => True
  | TAny, (VNil | VAny _) => True
  | TMap, (VNil | VMap _) => True
  | TPtr _, VNil => True
  | TPtr t', VPtr v' => has_type t' v'
  | TSlice _, VNil => True
  | TSlice t', VSlice l => Forall (has_type t') l
  | TStruct fs, VStruct l => have_types fs l
  | _, _ => False
  end
with have_types (fs : fields) (l : list val) {struct fs} : Prop :=
  match fs, l with
  | FNil, [] => True
  | FCons _ t _ _ rest, v :: l' => has_type t v /\ have_types rest l'
  | _, _ => False
  end.

(** The interface values of Go: nil, or a value with its dynamic type. *)
Definition iface : Type := option (ty * val).

(** ** The constructors of [models.go] *)

(** [String] returns a pointer to the string. *)
Definition String_ (s : string) : val := VPtr (VString s).

(** [Int64] returns a pointer to the int64. *)
Definition Int64 (i : Z) : val := VPtr (VInt i).

(** [Int32] returns a pointer to the int32. *)
Definition Int32 (i : Z) : val := VPtr (VInt i).

(** [Timestamp] returns number of seconds since epoch. *)
Definition Timestamp (t : Time) : val := Int64 (Time_Unix t).

(** [Bool] returns a pointer to the bool. *)
Definition Bool (b : bool) : val := VPtr (VBool b).

(** [True] returns a pointer to true, [False] a pointer to false. *)
Definition True_ : val := Bool true.
Definition False_ : val := Bool false.

(** ** The library below the package *)

(** The errors of [json.Unmarshal]. *)
Inductive json_error : Type :=
| SyntaxError (msg : string)
| InvalidUnmarshalError (target : iface)
| UnmarshalTypeError (value : json) (target : ty)
| UnmarshalerError (msg : string).

(** What the standard library does on text.  None of it is code of this
    package; the dispatcher calls it and branches on whether it failed. *)
Class GoLibrary : Type := {
  (** [net/url]: a parsed URL, [url.Parse], [URL.ResolveReference] and
      [URL.String]. *)
  URL : Type;
  url_Parse : string -> result URL;
  URL_ResolveReference : URL -> URL -> URL;
  URL_String : URL -> string;
  (** [net/http]: the checks of [http.NewRequest] on the method and the
      URL; [None] when it accepts them. *)
  http_NewRequest_error : string -> string -> option string;
  (** [context.Context] and [context.Background()]. *)
  Context_ : Type;
  context_Background : Context_;
  (** [encoding/json]: scanning a JSON text (an error for a text that is
      not well formed), printing a JSON value, and the text of an error. *)
  json_scan : string -> result json;
  json_print : json -> string;
  json_error_text : json_error -> string;
  (** [time]: [Time.MarshalJSON] gives the text of a JSON string (RFC 3339)
      or fails (year out of range); [Time.UnmarshalJSON] reads one. *)
  Time_MarshalJSON : Time -> result string;
  Time_UnmarshalJSON : string -> result Time
}.

(** ** Encoding and decoding by type: [encoding/json] *)

(** [isEmptyValue]: what [omitempty] omits: false, 0, a nil pointer, a nil
    interface value, and any empty slice, map or string. *)
Definition isEmptyValue (v : val) : bool :=
  match v with
  | VString "" => true
  | VBool false => true
  | VInt 0 => true
  | VNil => true
  | VSlice [] => true
  | VMap [] => true
  | _ => false
  end.

(** A key put in its place in a list of entries kept in the order of the
    keys; the value of a key already there is replaced. *)
Fixpoint map_store (k : string) (j : json) (m : list (string * json))
  : list (string * json) :=
  match m with
  | [] => [(k, j)]
  | (k', j') :: m' =>
      match String.compare k k' with
      | Lt => (k, j) :: m
      | Eq => (k, j) :: m'
      | Gt => (k', j') :: map_store k j m'
      end
  end.

Section Codec.
Context `{GoLibrary}.

(** [json.Marshal] up to the printing of the text.  A struct is an object
    with one member per field, in the order of the declaration, without
    the fields that say [omitempty] and hold an empty value.  A nil
    pointer, slice, map or interface is [null].  The error case is the one
    of [time.Time], whose own error the library wraps; a value that is not
    of the type has no encoding. *)
Fixpoint marshal (t : ty) (v : val) {struct t} : result json :=
  match t, v with
  | TString, VString s => inl (JStr (to_valid_utf8 0 s))
  | TBool, VBool b => inl (JBool b)
  | TInt _, VInt z => inl (JInt z)
  | TTime, VTime tm =>
      try s := Time_MarshalJSON tm
      else e => inr ("json: error calling MarshalJSON for type time.Time: " ++ e) in
      inl (JStr s)
  | TAny, VNil => inl JNull
  | TAny, VAny j => inl j
  | TMap, VNil => inl JNull
  | TMap, VMap m => inl (JObj (map (fun e => (to_valid_utf8 0 (fst e), snd e)) m))
  | TPtr _, VNil => inl JNull
  | TPtr t', VPtr v' => marshal t' v'
  | TSlice _, VNil => inl JNull
  | TSlice t', VSlice l =>
      try js := mapM (marshal t') l else e => inr e in inl (JArr js)
  | TStruct fs, VStruct l =>
      try m := marshal_fields fs l else e => inr e in inl (JObj m)
  | _, _ => inr "json: unsupported value"
  end
with marshal_fields (fs : fields) (l : list val) {struct fs}
  : result (list (string * json)) :=
  match fs, l with
  | FNil, [] => inl []
  | FCons _ t key omitempty rest, v :: l' =>
      if omitempty && isEmptyValue v then marshal_fields rest l'
      else
        try j := marshal t v else e => inr e in
        try m := marshal_fields rest l' else e => inr e in
        inl ((key, j) :: m)
  | _, _ => inr "json: unsupported value"
  end.

(** How a decoding ended.  A value of the wrong kind for its destination
    is recorded ([Saved], the first one is kept) and the decoding goes on;
    an error of an [UnmarshalJSON] method ends it at once ([Fatal]). *)
Inductive outcome : Type :=
| Done
| Saved (e : json_error)
| Fatal (e : json_error).

Definition and_then (first later : outcome) : outcome :=
  match first, later with
  | Done, o => o
  | Saved e, Fatal e' => Fatal e'
  | Saved e, _ => Saved e
  | Fatal e, _ => Fatal e
  end.

(** The array of a JSON text decoded into a slice: element [i] is decoded
    into the element the slice has at [i], or into a zero value past its
    end; the slice ends where the array ends. *)
Fixpoint decode_array (dec : json -> val -> val * outcome) (z : val)
  (l : list json) (old : list val) {struct l} : list val * outcome :=
  match l with
  | [] => ([], Done)
  | j :: l' =>
      let cur := match old with x :: _ => x | [] => z end in
      let old' := tl old in
      let '(v, o) := dec j cur in
      match o with
      | Fatal e => (v :: old', Fatal e)
      | _ =>
          let '(vs, o') := decode_array dec z l' old' in
          (v :: vs, and_then o o')
      end
  end.

(** Case folding, for the keys that match a field only up to the case of
    their letters.  The library folds by the simple folding of Unicode; the
    keys of the declarations are ASCII, and of the letters outside ASCII
    only the long s (U+017F, bytes C5 BF) and the Kelvin sign (U+212A,
    bytes E2 84 AA) fold to an ASCII letter: they are folded to [S] and
    [K], an ASCII letter to its capital, and any other byte is kept. *)
Definition fold_ascii (c : ascii) : ascii :=
  if in_range 97 122 c then ascii_of_N (N_of_ascii c - 32) else c.

Fixpoint foldName (s : string) : string :=
  match s with
  | EmptyString => EmptyString
  | String c1 r1 =>
      match r1 with
      | String c2 r2 =>
          if (byte_of c1 =? 0xC5) && (byte_of c2 =? 0xBF) then String "S" (foldName r2)
          else
            match r2 with
            | String c3 r3 =>
                if (byte_of c1 =? 0xE2) && (byte_of c2 =? 0x84) && (byte_of c3 =? 0xAA)
                then String "K" (foldName r3)
                else String (fold_ascii c1) (foldName r1)
            | EmptyString => String (fold_ascii c1) (foldName r1)
            end
      | EmptyString => String (fold_ascii c1) (foldName r1)
      end
  end.

(** The index of the first field whose key satisfies [p]. *)
Fixpoint find_key (p : string -> bool) (fs : fields) : option nat :=
  match fs with
  | FNil => None
  | FCons _ _ key _ rest =>
      if p key then Some O else option_map S (find_key p rest)
  end.

(** The field of a key: the one with that very key, or else one with
    that key up to case. *)
Definition field_index (fs : fields) (k : string) : option nat :=
  match find_key (String.eqb k) fs with
  | Some i => Some i
  | None => find_key (fun key => String.eqb (foldName key) (foldName k)) fs
  end.

Fixpoint update {A : Type} (i : nat) (x : A) (l : list A) : list A :=
  match l, i with
  | [], _ => []
  | _ :: l', O => x :: l'
  | y :: l', S i' => y :: update i' x l'
  end.

(** The object of a JSON text decoded into a struct: the members are
    taken in the order of the text, each decoded into what its field
    holds; a key of no field is skipped. *)
Fixpoint decode_object (fs : fields) (ds : list (json -> val -> val * outcome))
  (m : list (string * json)) (cur : list val) {struct m} : list val * outcome :=
  match m with
  | [] => (cur, Done)
  | (k, j) :: m' =>
      match field_index fs k with
      | None => decode_object fs ds m' cur
      | Some i =>
          match nth_error ds i, nth_error cur i with
          | Some dec, Some old =>
              let '(v, o) := dec j old in
              match o with
              | Fatal e => (update i v cur, Fatal e)
              | _ =>
                  let '(r, o') := decode_object fs ds m' (update i v cur) in
                  (r, and_then o o')
              end
          | _, _ => decode_object fs ds m' cur
          end
      end
  end.

(** [json.Unmarshal] after the scanning of the text: the value [j]
    decoded into a destination of type [t] that holds [old].  [null]
    sets a pointer, slice, map or interface to nil and leaves anything
    else as it is; a pointer that is nil is made to point to a zero value
    before anything else is decoded through it. *)
Fixpoint unmarshal (t : ty) (j : json) (old : val) {struct t} : val * outcome :=
  match t with
  | TString =>
      match j with
      | JNull => (old, Done)
      | JStr s => (VString s, Done)
      | _ => (old, Saved (UnmarshalTypeError j t))
      end
  | TBool =>
      match j with
      | JNull => (old, Done)
      | JBool b => (VBool b, Done)
      | _ => (old, Saved (UnmarshalTypeError j t))
      end
  | TInt w =>
      match j with
      | JNull => (old, Done)
      | JInt z =>
          if (- 2 ^ (w - 1) <=? z) && (z <? 2 ^ (w - 1)) then (VInt z, Done)
          else (old, Saved (UnmarshalTypeError j t))
      | _ => (old, Saved (UnmarshalTypeError j t))
      end
  | TTime =>
      match j with
      | JNull => (old, Done)
      | JStr s =>
          try tm := Time_UnmarshalJSON s
          else e => (old, Fatal (UnmarshalerError e)) in
          (VTime tm, Done)
      | _ => (old, Fatal (UnmarshalerError "Time.UnmarshalJSON: input is not a JSON string"))
      end
  | TAny =>
      match j with
      | JNull => (VNil, Done)
      | _ => (VAny j, Done)
      end
  | TMap =>
      match j with
      | JNull => (VNil, Done)
      | JObj m =>
          let entries := match old with VMap es => es | _ => [] end in
          (VMap (fold_left (fun es e => map_store (fst e) (snd e) es) m entries), Done)
      | _ => (old, Saved (UnmarshalTypeError j t))
      end
  | TPtr t' =>
      match j with
      | JNull => (VNil, Done)
      | _ =>
          let '(v, o) := unmarshal t' j (match old with VPtr x => x | _ => zero t' end) in
          (VPtr v, o)
      end
  | TSlice t' =>
      match j with
      | JNull => (VNil, Done)
      | JArr l =>
          let '(vs, o) :=
            decode_array (unmarshal t') (zero t') l
              (match old with VSlice xs => xs | _ => [] end) in
          (VSlice vs, o)
      | _ => (old, Saved (UnmarshalTypeError j t))
      end
  | TStruct fs =>
      match j with
      | JNull => (old, Done)
      | JObj m =>
          let '(l, o) :=
            decode_object fs (decoders fs) m
              (match old with VStruct xs => xs | _ => zero_fields fs end) in
          (VStruct l, o)
      | _ => (old, Saved (UnmarshalTypeError j t))
      end
  end
with decoders (fs : fields) {struct fs} : list (json -> val -> val * outcome) :=
  match fs with
  | FNil => []
  | FCons _ t _ _ rest => unmarshal t :: decoders rest
  end.

(** [json.Marshal(v)] for an interface value: the typed encoding, printed.
    A nil interface is [null]. *)
Definition json_Marshal (v : iface) : result string :=
  match v with
  | None => inl (json_print JNull)
  | Some (t, x) => try j := marshal t x else e => inr e in inl (json_print j)
  end.

(** [json.Unmarshal(data, v)]: the text is checked first; then the
    destination has to be a pointer that is not nil
    ([InvalidUnmarshalError] otherwise); then the value is decoded into
    what it points to.  The answer is the destination afterwards and the
    error, if any. *)
Definition json_Unmarshal (data : string) (v : iface) : iface * option json_error :=
  match json_scan data with
  | inr msg => (v, Some (SyntaxError msg))
  | inl j =>
      match v with
      | Some (TPtr t, VPtr x) =>
          let '(x', o) := unmarshal t j x in
          (Some (TPtr t, VPtr x'),
           match o with Done => None | Saved e | Fatal e => Some e end)
      | _ => (v, Some (InvalidUnmarshalError v))
      end
  end.

End Codec.

(** ** [models.go] *)

(** [RoomPrivacy] controls who can join a meeting; [PermissionType] names
    what a participant may send.  Both are string types. *)
Definition RoomPrivacy : ty := TString.
Definition Public : val := VString "public".
Definition Private : val := VString "private".
Definition Org : val := VString "org".

Definition PermissionType : ty := TString.
Definition Video : val := VString "video".
Definition Audio : val := VString "audio".
Definition ScreenAudio : val := VString "screenAudio".
Definition ScreenVideo : val := VString "screenVideo".

(** The tag of a field says [omitempty] or it does not. *)
Definition omitempty : bool := true.
Definition always : bool := false.

(** [Config]: options contained within the [DomainConfig] that can be
    changed by the user. *)
Definition Config : ty := struct {
  field "RedirectOnMeetingExit" (TPtr TString) "redirect_on_meeting_exit" omitempty;
  field "HideDailyBranding" (TPtr TBool) "hide_daily_branding" omitempty;
  field "HIPPAA" (TPtr TBool) "hipaa" omitempty;
  field "IntercomAutoRecord" (TPtr TBool) "intercom_auto_record" omitempty;
  field "Lang" (TPtr TString) "lang" omitempty
}.

(** [DomainConfig] is used when getting and setting the domain
    configuration. *)
Definition DomainConfig : ty := struct {
  field "DomainName" (TPtr TString) "domain_name" omitempty;
  field "Config" (TPtr Config) "config" omitempty
}.

Definition Permissions : ty := struct {
  field "CanSend" (TPtr (TSlice PermissionType)) "canSend" omitempty;
  field "HasPresence" (TPtr TBool) "hasPresence" omitempty
}.

(** [RoomConfig] is the configuration for a room. *)
Definition RoomConfig : ty := struct {
  field "NotBefore" (TPtr TInt64) "nbf" omitempty;
  field "ExpiresAt" (TPtr TInt64) "exp" omitempty;
  field "StartVideoOff" (TPtr TBool) "start_video_off" omitempty;
  field "StartAudioOff" (TPtr TBool) "start_audio_off" omitempty;
  field "MaxParticipants" (TPtr TInt32) "max_participants" omitempty;
  field "AutoJoin" (TPtr TBool) "autojoin" omitempty;
  field "EnableKnocking" (TPtr TBool) "enable_knocking" omitempty;
  field "EnableScreenShare" (TPtr TBool) "enable_screenshare" omitempty;
  field "EnableChat" (TPtr TBool) "enable_chat" omitempty;
  field "OwnerOnlyBroadcast" (TPtr TBool) "owner_only_broadcast" omitempty;
  field "EnableRecording" (TPtr TString) "enable_recording" omitempty;
  field "EjectAtRoomExpiry" (TPtr TBool) "eject_at_room_exp" omitempty;
  field "EjectAfterElapsed" (TPtr TInt32) "eject_after_elapsed" omitempty;
  field "Lang" (TPtr TString) "lang" omitempty;
  field "MeetingJoinHook" (TPtr TString) "meeting_join_hook" omitempty;
  field "SignalingType" (TPtr TString) "signaling_impl" omitempty;
  field "SFUSwitchover" (TPtr TInt32) "sfu_switchover" omitempty;
  field "EnableMeshSFU" (TPtr TBool) "enable_mesh_sfu" omitempty;
  field "EnableTerseLogging" (TPtr TBool) "enable_terse_logging" omitempty;
  field "EnableHiddenParticipants" (TPtr TBool) "enable_hidden_participants" omitempty
}.

(** [Room] contains information about a video location and configuration. *)
Definition Room : ty := struct {
  field "ID" TString "id" always;
  field "Name" TString "name" always;
  field "APICreated" TBool "api_created" always;
  field "Privacy" RoomPrivacy "privacy" always;
  field "URL" TString "url" always;
  field "CreatedAt" TTime "created_at" always;
  field "Config" (TPtr RoomConfig) "config" always
}.

(** [MeetingToken] is the configuration that controls room access and
    session configuration on a per-user basis. *)
Definition MeetingToken : ty := struct {
  field "NotBefore" (TPtr TInt64) "nbf" omitempty;
  field "ExpiresAt" (TPtr TInt64) "exp" omitempty;
  field "RoomName" (TPtr TString) "room_name" omitempty;
  field "IsOwner" (TPtr TBool) "is_owner" omitempty;
  field "UserName" (TPtr TString) "user_name" omitempty;
  field "UserID" (TPtr TString) "user_id" omitempty;
  field "EnableScreenShare" (TPtr TBool) "enable_screenshare" omitempty;
  field "StartVideoOff" (TPtr TBool) "start_video_off" omitempty;
  field "StartAudioOff" (TPtr TBool) "start_audio_off" omitempty;
  field "EnableRecording" (TPtr TString) "enable_recording" omitempty;
  field "StartCloudRecording" (TPtr TBool) "start_cloud_recording" omitempty;
  field "CloseTabOnExit" (TPtr TBool) "close_tab_on_exit" omitempty;
  field "EjectAtRoomExpiry" (TPtr TBool) "eject_at_room_exp" omitempty;
  field "EjectAfterElapsed" (TPtr TInt32) "eject_after_elapsed" omitempty;
  field "Lang" (TPtr TString) "lang" omitempty;
  field "Permissions" (TPtr Permissions) "permissions" omitempty
}.

(** [Layout] is a configuration for started a recording. *)
Definition Layout : ty := struct {
  field "Preset" TString "preset" always
}.

Definition Recording : ty := struct {
  field "Id" TString "id" always;
  field "StartTs" TGoInt "start_ts" always;
  field "Status" TString "status" always;
  field "MaxParticipants" TGoInt "max_participants" always;
  field "RoomName" TString "room_name" always;
  field "Tracks" (TSlice TAny) "tracks" always;
  field "Duration" TGoInt "duration" always;
  field "ShareToken" TString "share_token" always
}.

(** ** [requests.go] *)

(** [ListRoomsRequest] contains the parameters for listing rooms. *)
Definition ListRoomsRequest : ty := struct {
  field "Limit" TInt32 "limit" omitempty;
  field "EndingBefore" TString "ending_before" omitempty;
  field "EndingAfter" TString "ending_after" omitempty
}.

(** [ListRoomsResponse] is the response envelope when listing rooms. *)
Definition ListRoomsResponse : ty := struct {
  field "TotalCount" TInt32 "total_count" always;
  field "Rooms" (TSlice Room) "data" always
}.

(** [CreateRoomRequest] contains the parameters for creating a room. *)
Definition CreateRoomRequest : ty := struct {
  field "Name" (TPtr TString) "name" omitempty;
  field "Privacy" RoomPrivacy "privacy" omitempty;
  field "Config" (TPtr RoomConfig) "properties" omitempty
}.

(** [CreateRoomResponse], [GetRoomResponse] and [UpdateRoomResponse] embed
    [Room] and have no field of their own: the fields of [Room] are theirs. *)
Definition CreateRoomResponse : ty := Room.
Definition GetRoomResponse : ty := Room.
Definition UpdateRoomResponse : ty := Room.

(** [UpdateRoomRequest] contains the parameters for updating a room. *)
Definition UpdateRoomRequest : ty := struct {
  field "Privacy" RoomPrivacy "privacy" omitempty;
  field "Config" (TPtr RoomConfig) "properties" omitempty
}.

(** [CreateMeetingTokenRequest] contains the properties for creating a
    meeting token. *)
Definition CreateMeetingTokenRequest : ty := struct {
  field "Properties" (TPtr MeetingToken) "properties" omitempty
}.

(** [CreateMeetingTokenResponse] contains newly-created meeting token
    string. *)
Definition CreateMeetingTokenResponse : ty := struct {
  field "Token" (TPtr TString) "token" omitempty
}.

(** [GetMeetingTokenResponse] contains the meeting token properties
    directly: [type GetMeetingTokenResponse MeetingToken]. *)
Definition GetMeetingTokenResponse : ty := MeetingToken.

Definition GetRecordingResponse : ty := struct {
  field "TotalCount" TGoInt "total_count" always;
  field "Recording" (TSlice Recording) "data" always
}.

Definition GetRecordingLinkResponse : ty := struct {
  field "DownloadLink" TString "download_link" always;
  field "Expires" TGoInt "expires" always
}.

Definition StartRecordingRequest : ty := struct {
  field "Height" TGoInt "height" always;
  field "Width" TGoInt "width" always;
  field "Layout" Layout "layout" always
}.

Definition StartRecordingResponse : ty := struct {
  field "Sent" TBool "sent" always;
  field "RecordingID" TString "recordingId" always
}.

(** ** [daily.go] *)

(** [fmt.Sprintf] for a format with one verb: the first [%s] (or [%d]) of
    the format is replaced by the argument. *)
Fixpoint subst_verb (verb : ascii) (format arg : string) : string :=
  match format with
  | EmptyString => EmptyString
  | String a tl =>
      match a, tl with
      | "%"%char, String c rest =>
          if Ascii.eqb c verb then arg ++ rest else String a (subst_verb verb tl arg)
      | _, _ => String a (subst_verb verb tl arg)
      end
  end.

Definition itoa (n : Z) : string :=
  DecimalString.NilZero.string_of_int (Z.to_int n).

Definition Sprintf_s (format arg : string) : string := subst_verb "s" format arg.
Definition Sprintf_d (format : string) (n : Z) : string := subst_verb "d" format (itoa n).

(** The constants and the type of the package's error file, which is not
    among the sources: the texts of the error categories, and the shape
    [ErrorDetails] that the body of a failed call is decoded into. *)
Class ErrorsFile : Type := {
  ErrBadRequest : string;
  ErrUnauthorized : string;
  ErrTooManyRequests : string;
  ErrInternal : string;
  ErrUnexpected : string;
  ErrParseError : string;
  ErrorDetails : ty
}.

(** [Error], with the fields [request] fills; [Details] is a
    [*ErrorDetails]. *)
Record Error : Type := {
  Message : string;
  StatusCode : Z;
  Details : val;
  RawDetails : string
}.

(** The values of type [error] that leave this package: the formatted
    texts of [fmt.Errorf], and [Error] values. *)
Inductive error : Type :=
| errorString (text : string)
| ErrorValue (e : Error).

Definition fmt_Errorf (format arg : string) : error :=
  errorString (Sprintf_s format arg).

(** [net/http] status codes. *)
Definition StatusOK : Z := 200.
Definition StatusBadRequest : Z := 400.
Definition StatusUnauthorized : Z := 401.
Definition StatusTooManyRequests : Z := 429.
Definition StatusInternalServerError : Z := 500.

(** A response body: the bytes [ioutil.ReadAll] gets out of it and the
    error it ends with, if any. *)
Record Reader : Type := {
  read_bytes : string;
  read_error : option string
}.

Definition ioutil_ReadAll (r : Reader) : string * option string :=
  (read_bytes r, read_error r).

Record Response : Type := {
  resp_StatusCode : Z;
  resp_Body : Reader
}.

Definition libraryVersion : string := "0.1".
Definition userAgent : string := "daily-go/" ++ libraryVersion.
Definition defaultBaseURL : string := "https://api.daily.co/v1/".

Section Dispatcher.
Context `{GoLibrary} `{ErrorsFile}.

(** An [*http.Request]. *)
Record Request : Type := {
  req_Method : string;
  req_URL : string;
  req_Body : option string;
  req_Header : list (string * string);
  req_Context : Context_
}.

Definition http_NewRequest (method url : string) (body : option string)
  : result Request :=
  match http_NewRequest_error method url with
  | Some e => inr e
  | None =>
      inl {| req_Method := method; req_URL := url; req_Body := body;
             req_Header := []; req_Context := context_Background |}
  end.

Definition Header_Set (key value : string) (r : Request) : Request :=
  {| req_Method := req_Method r; req_URL := req_URL r; req_Body := req_Body r;
     req_Header :=
       (key, value) :: filter (fun e => negb (String.eqb (fst e) key)) (req_Header r);
     req_Context := req_Context r |}.

Definition WithContext (r : Request) (ctx : Context_) : Request :=
  {| req_Method := req_Method r; req_URL := req_URL r; req_Body := req_Body r;
     req_Header := req_Header r; req_Context := ctx |}.

(** The interface [httpClient]: one method, [Do]. *)
Definition httpClient : Type := Request -> result Response.

(** [Client] for the daily.co API. *)
Record Client : Type := {
  HTTPClient : httpClient;
  BaseURL : URL;
  UserAgent : string
}.

(** [request]: the error it returns, and the destination [result_]
    afterwards. *)
Definition request (c : Client) (ctx : Context_) (method path : string)
  (data : iface) (result_ : iface) : option error * iface :=
  try rel := url_Parse path
  else err => (Some (fmt_Errorf "daily: failed to parse request path: %s" err), result_) in
  let u := URL_ResolveReference (BaseURL c) rel in
  try body :=
    match data with
    | None => inl None
    | Some _ => try b := json_Marshal data else err => inr err in inl (Some b)
    end
  else err => (Some (fmt_Errorf "daily: failed to parse request data: %s" err), result_) in
  try req := http_NewRequest method (URL_String u) body
  else err => (Some (fmt_Errorf "daily: failed to build request: %s" err), result_) in
  let req := Header_Set "User-Agent" (UserAgent c) req in
  try resp := HTTPClient c (WithContext req ctx)
  else err => (Some (fmt_Errorf "daily: request failed: %s" err), result_) in
  let '(respBody, _) := ioutil_ReadAll (resp_Body resp) in
  if negb (resp_StatusCode resp =? StatusOK) then
    let msg :=
      if resp_StatusCode resp =? StatusBadRequest then ErrBadRequest
      else if resp_StatusCode resp =? StatusUnauthorized then ErrUnauthorized
      else if resp_StatusCode resp =? StatusTooManyRequests then ErrTooManyRequests
      else if resp_StatusCode resp =? StatusInternalServerError then ErrInternal
      else ErrUnexpected in
    let details :=
      match json_Unmarshal respBody (Some (TPtr ErrorDetails, VPtr (zero ErrorDetails))) with
      | (_, Some _) => VNil
      | (Some (_, d), None) => d
      | (None, None) => VNil
      end in
    (Some (ErrorValue {| Message := msg;
                         StatusCode := resp_StatusCode resp;
                         Details := details;
                         RawDetails := respBody |}),
     result_)
  else
    match json_Unmarshal respBody result_ with
    | (result', Some err) =>
        (Some (ErrorValue {| Message := ErrParseError ++ ": " ++ json_error_text err;
                             StatusCode := resp_StatusCode resp;
                             Details := VNil;
                             RawDetails := respBody |}),
         result')
    | (result', None) => (None, result')
    end.

(** What a pointer that went to [request] as the destination points to
    afterwards. *)
Definition pointer_of (r : iface) : val :=
  match r with
  | Some (_, p) => p
  | None => VNil
  end.

(** A call whose answer is decoded into a fresh [T]:
    [resp := &T{}; return resp, c.request(ctx, method, path, data, resp)]. *)
Definition call (c : Client) (ctx : Context_) (method path : string)
  (data : iface) (T : ty) : val * option error :=
  let resp := VPtr (zero T) in
  let '(err, r) := request c ctx method path data (Some (TPtr T, resp)) in
  (pointer_of r, err).

(** [GetDomainConfig] returns domain configuration information. *)
Definition GetDomainConfig (c : Client) (ctx : Context_) : val * option error :=
  call c ctx "GET" "" None DomainConfig.

(** [SetDomainConfig] updates domain configuration information. *)
Definition SetDomainConfig (c : Client) (ctx : Context_) (req : val)
  : val * option error :=
  call c ctx "POST" ""
    (Some (struct { field "Properties" (TPtr Config) "Properties" always },
           VStruct [req]))
    DomainConfig.

(** [ListRooms] returns available rooms. *)
Definition ListRooms (c : Client) (ctx : Context_) (req : val) : val * option error :=
  let req :=
    match req with
    | VNil => VPtr (zero ListRoomsRequest)
    | _ => req
    end in
  call c ctx "GET" "rooms" (Some (TPtr ListRoomsRequest, req)) ListRoomsResponse.

(** [CreateRoom] creats a new room. *)
Definition CreateRoom (c : Client) (ctx : Context_) (req : val) : val * option error :=
  call c ctx "POST" "rooms" (Some (TPtr CreateRoomRequest, req)) CreateRoomResponse.

(** [GetRoom] returns a single room object. *)
Definition GetRoom (c : Client) (ctx : Context_) (name : string) : val * option error :=
  call c ctx "GET" ("rooms/" ++ name) None GetRoomResponse.

(** [UpdateRoom] updates details about a room. *)
Definition UpdateRoom (c : Client) (ctx : Context_) (name : string) (req : val)
  : val * option error :=
  call c ctx "POST" ("rooms/" ++ name) (Some (TPtr UpdateRoomRequest, req))
    UpdateRoomResponse.

(** [DeleteRoom] deletes a room.  The response is thrown away: it goes
    into a map of which [request] gets the address. *)
Definition DeleteRoom (c : Client) (ctx : Context_) (name : string) : option error :=
  let resp := VMap [] in
  fst (request c ctx "DELETE" ("rooms/" ++ name) None (Some (TPtr TMap, VPtr resp))).

(** [CreateMeetingToken] creates a meeting token. *)
Definition CreateMeetingToken (c : Client) (ctx : Context_) (req : val)
  : val * option error :=
  call c ctx "POST" "meeting-tokens" (Some (TPtr CreateMeetingTokenRequest, req))
    CreateMeetingTokenResponse.

(** [GetMeetingToken] validates and returns the properties of a meeting
    token. *)
Definition GetMeetingToken (c : Client) (ctx : Context_) (token : string)
  : val * option error :=
  call c ctx "GET" ("meeting-tokens/" ++ token) None GetMeetingTokenResponse.

Record GetRecordingsParams : Type := {
  Limit : Z;
  EndingBefore : string;
  StartingAfter : string;
  RoomName : string
}.

Definition generateUrlWithQueryParams (path : string) (params : list string) : string :=
  match params with
  | p0 :: rest =>
      fold_left (fun path param => path ++ "&" ++ param) rest (path ++ "?" ++ p0)
  | [] => path
  end.

(** The path of [GetRecordings]: the parameters that are set, each as it
    is formatted there. *)
Definition GetRecordings_params (p : GetRecordingsParams) : list string :=
  let params : list string := [] in
  let params := if 0 <? Limit p then (params ++ [Sprintf_d "limit=%d" (Limit p)])%list else params in
  let params :=
    if negb (String.eqb (EndingBefore p) "")
    then (params ++ [Sprintf_s "&ending_before=%s" (EndingBefore p)])%list else params in
  let params :=
    if negb (String.eqb (StartingAfter p) "")
    then (params ++ [Sprintf_s "&starting_after=%s" (StartingAfter p)])%list else params in
  let params :=
    if negb (String.eqb (RoomName p) "")
    then (params ++ [Sprintf_s "room_name=%s" (RoomName p)])%list else params in
  params.

Definition GetRecordings_path (p : GetRecordingsParams) : string :=
  generateUrlWithQueryParams "/v1/recordings" (GetRecordings_params p).

Definition GetRecordings (c : Client) (ctx : Context_) (p : GetRecordingsParams)
  : val * option error :=
  call c ctx "GET" (GetRecordings_path p) None GetRecordingResponse.

(** [StartRecording] starts a recording for a given room. *)
Definition StartRecording (c : Client) (ctx : Context_) (name : string) (req : val)
  : val * option error :=
  call c ctx "POST" ("rooms/" ++ name ++ "/recordings/start")
    (Some (TPtr StartRecordingRequest, req)) StartRecordingResponse.

(** [StopRecording] stops a recording for a given room. *)
Definition StopRecording (c : Client) (ctx : Context_) (name : string) : option error :=
  let resp := VMap [] in
  fst (request c ctx "POST" ("rooms/" ++ name ++ "/recordings/stop") None
         (Some (TPtr TMap, VPtr resp))).

(** [DeleteRecording] deletes a recording on Daily's side.  Here the map
    itself goes to [request], not its address. *)
Definition DeleteRecording (c : Client) (ctx : Context_) (recordingID : string)
  : option error :=
  let resp := VMap [] in
  fst (request c ctx "DELETE" ("recordings/" ++ recordingID) None (Some (TMap, resp))).

Definition GetRecordingLink (c : Client) (ctx : Context_) (recordingID : string)
  : val * option error :=
  call c ctx "GET" ("recordings/" ++ recordingID ++ "/access-link") None
    GetRecordingLinkResponse.

End Dispatcher.

(** ** What the specification says, as definitions *)

(** The table of the error taxonomy: the category of a status that is not
    the success status. *)
Definition category_of_status `{ErrorsFile} (status : Z) : string :=
  match status with
  | 400 => ErrBadRequest
  | 401 => ErrUnauthorized
  | 429 => ErrTooManyRequests
  | 500 => ErrInternal
  | _ => ErrUnexpected
  end.

(** The percent-escaping of a path segment ([url.PathEscape]): letters,
    digits and [-_.~$&+=:@] stay, every other byte becomes [%XX]. *)
Definition path_segment_safe (c : ascii) : bool :=
  in_range 97 122 c || in_range 65 90 c || in_range 48 57 c
  || existsb (Ascii.eqb c)
       ["-"; "_"; "."; "~"; "$"; "&"; "+"; "="; ":"; "@"]%char.

Definition upperhex (n : N) : ascii :=
  match n with
  | 0 => "0" | 1 => "1" | 2 => "2" | 3 => "3" | 4 => "4" | 5 => "5" | 6 => "6"
  | 7 => "7" | 8 => "8" | 9 => "9" | 10 => "A" | 11 => "B" | 12 => "C"
  | 13 => "D" | 14 => "E" | _ => "F"
  end%N%char.

Fixpoint PathEscape (s : string) : string :=
  match s with
  | EmptyString => EmptyString
  | String c r =>
      if path_segment_safe c then String c (PathEscape r)
      else String "%" (String (upperhex (N_of_ascii c / 16))
                         (String (upperhex (N_of_ascii c mod 16)) (PathEscape r)))
  end.

Fixpoint all_bytes (p : ascii -> bool) (s : string) : bool :=
  match s with
  | EmptyString => true
  | String c r => p c && all_bytes p r
  end.

(** The member of a key in a JSON object. *)
Fixpoint lookup_key (k : string) (m : list (string * json)) : option json :=
  match m with
  | [] => None
  | (k', j) :: m' => if String.eqb k k' then Some j else lookup_key k m'
  end.

Definition member (k : string) (j : json) : option json :=
  match j with
  | JObj m => lookup_key k m
  | _ => None
  end.

Section Answers.
Context `{GoLibrary} `{ErrorsFile}.

(** The call went through: the path parsed, the body was encoded, the
    request was built, and the transport answered with [resp]. *)
Definition answers (c : Client) (ctx : Context_) (method path : string)
  (data : iface) (resp : Response) : Prop :=
  exists rel body req,
    url_Parse path = inl rel
    /\ match data with
       | None => inl None
       | Some _ => try b := json_Marshal data else err => inr err in inl (Some b)
       end = inl body
    /\ http_NewRequest method (URL_String (URL_ResolveReference (BaseURL c) rel)) body
       = inl req
    /\ HTTPClient c (WithContext (Header_Set "User-Agent" (UserAgent c) req) ctx)
       = inl resp.

(** The text of a response: what [ioutil.ReadAll] reads of its body. *)
Definition body_text (resp : Response) : string := read_bytes (resp_Body resp).

End Answers.

(** ** Records on the wire: what the omission law speaks of *)

Fixpoint keys (fs : fields) : list string :=
  match fs with
  | FNil => []
  | FCons _ _ key _ rest => key :: keys rest
  end.

Fixpoint distinct (l : list string) : bool :=
  match l with
  | [] => true
  | x :: r => negb (existsb (String.eqb x) r) && distinct r
  end.

(** Field [i] of a struct: its type, its key, and whether it is omitted
    when empty. *)
Fixpoint nth_field (fs : fields) (i : nat) : option (ty * string * bool) :=
  match fs, i with
  | FNil, _ => None
  | FCons _ t key omit _, O => Some (t, key, omit)
  | FCons _ _ _ _ rest, S i' => nth_field rest i'
  end.

Definition fields_of (t : ty) : fields :=
  match t with
  | TStruct fs => fs
  | _ => FNil
  end.

(** The fields of one struct after those of another. *)
Fixpoint fapp (pre fs : fields) : fields :=
  match pre with
  | FNil => fs
  | FCons name t key omit rest => FCons name t key omit (fapp rest fs)
  end.

(** The types the two directions of the codec are compared on: no
    [interface{}] and no map (their values are only known up to the JSON
    they stand for), and no two fields of a struct with one key. *)
Fixpoint codec_ok (t : ty) : bool :=
  match t with
  | TString | TBool | TInt _ | TTime => true
  | TAny | TMap => false
  | TPtr t' | TSlice t' => codec_ok t'
  | TStruct fs => fields_ok fs && distinct (keys fs)
  end
with fields_ok (fs : fields) : bool :=
  match fs with
  | FNil => true
  | FCons _ t _ _ rest => codec_ok t && fields_ok rest
  end.

(** The structs of optional fields only: every field a pointer. *)
Fixpoint all_pointers (fs : fields) : bool :=
  match fs with
  | FNil => true
  | FCons _ (TPtr _) _ _ rest => all_pointers rest
  | FCons _ _ _ _ _ => false
  end.

(** A field explicitly set to the zero value of its underlying type: a
    pointer to a zero for a pointer field ([String("")], [Int64(0)],
    [False()]), the zero itself otherwise. *)
Definition set_to_zero (t : ty) : val :=
  match t with
  | TPtr u => VPtr (zero u)
  | _ => zero t
  end.

Section OmissionLaw.
Context `{GoLibrary}.

(** The values that come back as they went: strings in valid UTF-8,
    integers in range, times the library reads back from its own text, no
    pointer to a nil pointer or nil slice (it is encoded as [null], which
    is read back as a nil pointer), and no empty slice that is not nil in
    a field that says [omitempty] (it is omitted, and read back as
    nil). *)
Fixpoint canonical (t : ty) (v : val) {struct t} : Prop :=
  match t, v with
  | TString, VString s => valid_utf8 s
  | TBool, VBool _ => True
  | TInt w, VInt z => - 2 ^ (w - 1) <= z < 2 ^ (w - 1)
  | TTime, VTime tm =>
      exists s, Time_MarshalJSON tm = inl s /\ Time_UnmarshalJSON s = inl tm
  | TPtr _, VNil => True
  | TPtr t', VPtr v' => v' <> VNil /\ canonical t' v'
  | TSlice _, VNil => True
  | TSlice t', VSlice l => Forall (canonical t') l
  | TStruct fs, VStruct l => canonical_fields fs l
  | _, _ => False
  end
with canonical_fields (fs : fields) (l : list val) {struct fs} : Prop :=
  match fs, l with
  | FNil, [] => True
  | FCons _ t _ omit rest, v :: l' =>
      canonical t v
      /\ (omit = true -> isEmptyValue v = true -> v = zero t)
      /\ canonical_fields rest l'
  | _, _ => False
  end.

(** The omission round-trip law of the specification for a record type:
    a record decoded from its own encoding is the record; and a field
    explicitly set to the zero value of its underlying type is a member
    of the encoding, so that it is told apart from a field that is
    absent. *)
Definition round_trips (t : ty) : Prop :=
  forall v j,
    canonical t v -> marshal t v = inl j -> unmarshal t j (zero t) = (v, Done).

Definition zero_is_present (t : ty) : Prop :=
  forall i ft key omit j,
    nth_field (fields_of t) i = Some (ft, key, omit) ->
    marshal t (VStruct (update i (set_to_zero ft) (zero_fields (fields_of t)))) = inl j ->
    member key j <> None.

End OmissionLaw.

Definition omission_law (t : ty) : Prop :=
  forall L : GoLibrary, round_trips t /\ zero_is_present t.

(** ** The sentences of the specification that the code does not follow *)

(** "Every error category is returned as a structured error value": every
    error that leaves [request] is an [Error]. *)
Definition every_error_is_structured : Prop :=
  forall (L : GoLibrary) (E : ErrorsFile) c ctx method path data result_ err,
    fst (request c ctx method path data result_) = Some err ->
    exists e, err = ErrorValue e.

(** "The identifier is percent-path-safe-joined into the relative path":
    each operation that takes an identifier is the call with the escaped
    identifier in the path. *)
Definition identifiers_are_escaped : Prop :=
  forall (L : GoLibrary) (E : ErrorsFile) c ctx id req,
    GetRoom c ctx id
      = call c ctx "GET" ("rooms/" ++ PathEscape id) None GetRoomResponse
    /\ UpdateRoom c ctx id req
      = call c ctx "POST" ("rooms/" ++ PathEscape id)
          (Some (TPtr UpdateRoomRequest, req)) UpdateRoomResponse
    /\ DeleteRoom c ctx id
      = fst (request c ctx "DELETE" ("rooms/" ++ PathEscape id) None
               (Some (TPtr TMap, VPtr (VMap []))))
    /\ GetMeetingToken c ctx id
      = call c ctx "GET" ("meeting-tokens/" ++ PathEscape id) None GetMeetingTokenResponse
    /\ StartRecording c ctx id req
      = call c ctx "POST" ("rooms/" ++ PathEscape id ++ "/recordings/start")
          (Some (TPtr StartRecordingRequest, req)) StartRecordingResponse
    /\ StopRecording c ctx id
      = fst (request c ctx "POST" ("rooms/" ++ PathEscape id ++ "/recordings/stop") None
               (Some (TPtr TMap, VPtr (VMap []))))
    /\ DeleteRecording c ctx id
      = fst (request c ctx "DELETE" ("recordings/" ++ PathEscape id) None
               (Some (TMap, VMap [])))
    /\ GetRecordingLink c ctx id
      = call c ctx "GET" ("recordings/" ++ PathEscape id ++ "/access-link") None
          GetRecordingLinkResponse.

(** "Every time-bearing field is transmitted as integer seconds": the
    fields that hold a time, by record type and key, and what it is for one
    of them to be an integer on the wire. *)
Definition seconds_fields : list (ty * string) :=
  [(RoomConfig, "nbf"); (RoomConfig, "exp");
   (MeetingToken, "nbf"); (MeetingToken, "exp");
   (Recording, "start_ts"); (GetRecordingLinkResponse, "expires")].

Definition time_bearing_fields : list (ty * string) :=
  (Room, "created_at") :: seconds_fields.

Definition sent_as_integer `{GoLibrary} (t : ty) (key : string) : Prop :=
  forall v j x,
    has_type t v -> marshal t v = inl j -> member key j = Some x ->
    exists n, x = JInt n.

Definition every_time_is_seconds : Prop :=
  forall (L : GoLibrary) t key, In (t, key) time_bearing_fields -> sent_as_integer t key.

(** "Key=value pairs joined by [&], the first prefixed by [?]": the path
    with its query. *)
Fixpoint joined (sep : string) (l : list string) : string :=
  match l with
  | [] => ""
  | [x] => x
  | x :: l' => x ++ sep ++ joined sep l'
  end.

Definition with_query (path : string) (pairs : list (string * string)) : string :=
  match pairs with
  | [] => path
  | _ => path ++ "?" ++ joined "&" (map (fun kv => fst kv ++ "=" ++ snd kv) pairs)
  end.

(** ** Classes of types for the facts about the codec *)

(** The types whose integers have a width: every [TInt w] with [0 < w]
    (the declarations use 32 and 64). *)
Fixpoint widths_ok (t : ty) : bool :=
  match t with
  | TInt w => 0 <? w
  | TString | TBool | TTime | TAny | TMap => true
  | TPtr t' | TSlice t' => widths_ok t'
  | TStruct fs => fields_widths_ok fs
  end
with fields_widths_ok (fs : fields) : bool :=
  match fs with
  | FNil => true
  | FCons _ t _ _ rest => widths_ok t && fields_widths_ok rest
  end.

(** The fields that are all left out of the encoding of a zero record:
    each says [omitempty] and has a zero value that is empty (which the
    zero value of a struct or of a time is not). *)
Fixpoint omitted_when_zero (fs : fields) : bool :=
  match fs with
  | FNil => true
  | FCons _ t _ omit rest => omit && isEmptyValue (zero t) && omitted_when_zero rest
  end.

(** The data of [SetDomainConfig]: [struct { Properties *Config }{req}]. *)
Definition SetDomainConfig_data (req : val) : iface :=
  Some (struct { field "Properties" (TPtr Config) "Properties" always }, VStruct [req]).

(** The destination of [DeleteRoom] and [StopRecording]: the address of
    an empty map. *)
Definition discarded : iface := Some (TPtr TMap, VPtr (VMap [])).

(** A time as the library keeps it has its nanoseconds within a second. *)
Definition Time_ok (t : Time) : Prop := 0 <= time_nsec t < 1000000000.

(** ** The stages of a call, for the statements about what is sent *)

(** The types whose values are always encoded: no [time.Time], whose
    encoding fails for some years, and no [interface{}] or map, which in Go
    can hold values that have no encoding. *)
Fixpoint encodable (t : ty) : bool :=
  match t with
  | TTime | TAny | TMap => false
  | TString | TBool | TInt _ => true
  | TPtr t' | TSlice t' => encodable t'
  | TStruct fs => fields_encodable fs
  end
with fields_encodable (fs : fields) : bool :=
  match fs with
  | FNil => true
  | FCons _ t _ _ rest => encodable t && fields_encodable rest
  end.

Section Stages.
Context `{GoLibrary} `{ErrorsFile}.

(** The body of a request for some data: none for nil data, the encoding
    of the data otherwise. *)
Definition encoded (data : iface) : result (option string) :=
  match data with
  | None => inl None
  | Some _ => try b := json_Marshal data else err => inr err in inl (Some b)
  end.

(** What becomes of an answer: the error of its status with the details
    that could be read from its body, or, for status 200, the decoding of
    the body into the destination. *)
Definition respond (resp : Response) (result_ : iface) : option error * iface :=
  if negb (resp_StatusCode resp =? StatusOK) then
    (Some (ErrorValue
       {| Message := category_of_status (resp_StatusCode resp);
          StatusCode := resp_StatusCode resp;
          Details :=
            match json_Unmarshal (body_text resp)
                    (Some (TPtr ErrorDetails, VPtr (zero ErrorDetails))) with
            | (Some (_, d), None) => d
            | _ => VNil
            end;
          RawDetails := body_text resp |}),
     result_)
  else
    match json_Unmarshal (body_text resp) result_ with
    | (result', Some err) =>
        (Some (ErrorValue
           {| Message := ErrParseError ++ ": " ++ json_error_text err;
              StatusCode := resp_StatusCode resp;
              Details := VNil;
              RawDetails := body_text resp |}),
         result')
    | (result', None) => (None, result')
    end.

(** One request given to the transport of the client, spelled out, and
    what becomes of its answer or of its failure. *)
Definition send (c : Client) (ctx : Context_) (method url : string)
  (body : option string) (result_ : iface) : option error * iface :=
  match HTTPClient c {| req_Method := method;
                        req_URL := url;
                        req_Body := body;
                        req_Header := [("User-Agent", UserAgent c)];
                        req_Context := ctx |} with
  | inl resp => respond resp result_
  | inr e => (Some (errorString ("daily: request failed: " ++ e)), result_)
  end.

(** The URL a parsed path stands for, for a client. *)
Definition url_of (c : Client) (rel : URL) : string :=
  URL_String (URL_ResolveReference (BaseURL c) rel).

(** What an operation returns of the result of [request]: the pointer it
    gave as the destination, and the error. *)
Definition returned (x : option error * iface) : val * option error :=
  (pointer_of (snd x), fst x).

(** The operations that take an identifier, with the text each one hands
    to [request] as its path, its method, its data and its destination. *)
Inductive id_operation : Type :=
| OpGetRoom
| OpUpdateRoom (req : val)
| OpDeleteRoom
| OpGetMeetingToken
| OpStartRecording (req : val)
| OpStopRecording
| OpDeleteRecording
| OpGetRecordingLink.

(** The operation itself, at an identifier: the error alone for the
    operations that return nothing else. *)
Definition run (op : id_operation) (c : Client) (ctx : Context_) (id : string)
  : val * option error :=
  match op with
  | OpGetRoom => GetRoom c ctx id
  | OpUpdateRoom req => UpdateRoom c ctx id req
  | OpDeleteRoom => (VNil, DeleteRoom c ctx id)
  | OpGetMeetingToken => GetMeetingToken c ctx id
  | OpStartRecording req => StartRecording c ctx id req
  | OpStopRecording => (VNil, StopRecording c ctx id)
  | OpDeleteRecording => (VNil, DeleteRecording c ctx id)
  | OpGetRecordingLink => GetRecordingLink c ctx id
  end.

Definition path_with (op : id_operation) (id : string) : string :=
  match op with
  | OpGetRoom | OpUpdateRoom _ | OpDeleteRoom => "rooms/" ++ id
  | OpGetMeetingToken => "meeting-tokens/" ++ id
  | OpStartRecording _ => "rooms/" ++ id ++ "/recordings/start"
  | OpStopRecording => "rooms/" ++ id ++ "/recordings/stop"
  | OpDeleteRecording => "recordings/" ++ id
  | OpGetRecordingLink => "recordings/" ++ id ++ "/access-link"
  end.

Definition method_of (op : id_operation) : string :=
  match op with
  | OpGetRoom | OpGetMeetingToken | OpGetRecordingLink => "GET"
  | OpUpdateRoom _ | OpStartRecording _ | OpStopRecording => "POST"
  | OpDeleteRoom | OpDeleteRecording => "DELETE"
  end.

Definition data_of (op : id_operation) : iface :=
  match op with
  | OpUpdateRoom req => Some (TPtr UpdateRoomRequest, req)
  | OpStartRecording req => Some (TPtr StartRecordingRequest, req)
  | _ => None
  end.

Definition destination_of (op : id_operation) : iface :=
  match op with
  | OpGetRoom => Some (TPtr GetRoomResponse, VPtr (zero GetRoomResponse))
  | OpUpdateRoom _ => Some (TPtr UpdateRoomResponse, VPtr (zero UpdateRoomResponse))
  | OpGetMeetingToken =>
      Some (TPtr GetMeetingTokenResponse, VPtr (zero GetMeetingTokenResponse))
  | OpStartRecording _ =>
      Some (TPtr StartRecordingResponse, VPtr (zero StartRecordingResponse))
  | OpGetRecordingLink =>
      Some (TPtr GetRecordingLinkResponse, VPtr (zero GetRecordingLinkResponse))
  | OpDeleteRoom | OpStopRecording => discarded
  | OpDeleteRecording => Some (TMap, VMap [])
  end.

Definition returned_by (op : id_operation) (x : option error * iface)
  : val * option error :=
  match op with
  | OpDeleteRoom | OpStopRecording | OpDeleteRecording => (VNil, fst x)
  | _ => returned x
  end.

End Stages.

(** ** A concrete library and concrete clients

    One instance of [GoLibrary] and of [ErrorsFile] to run the model on:
    URLs kept as text and resolved by appending to the base, a JSON printer
    without escapes, a scanner that knows a handful of texts, RFC 3339 for
    the text of a time, read back for the epoch only.  The statements below hold for every instance; this one
    shows them at work. *)

Module Sample.

Definition dquote : string := String (ascii_of_N 34) "".

Definition quote (s : string) : string := dquote ++ s ++ dquote.

Fixpoint print (j : json) : string :=
  match j with
  | JNull => "null"
  | JBool true => "true"
  | JBool false => "false"
  | JInt z => itoa z
  | JFrac lit => lit
  | JStr s => quote s
  | JArr l => "[" ++ joined "," (map print l) ++ "]"
  | JObj m =>
      "{" ++ joined "," (map (fun e => quote (fst e) ++ ":" ++ print (snd e)) m) ++ "}"
  end.

Definition scan (text : string) : result json :=
  if String.eqb text "{}" then inl (JObj [])
  else if String.eqb text "[]" then inl (JArr [])
  else if String.eqb text "null" then inl JNull
  else if String.eqb text "true" then inl (JBool true)
  else if String.eqb text (print (JObj [("deleted", JBool true)]))
  then inl (JObj [("deleted", JBool true)])
  else if String.eqb text (print (JObj [("error", JStr "not-found")]))
  then inl (JObj [("error", JStr "not-found")])
  else inr "invalid character looking for beginning of value".

Definition error_text (e : json_error) : string :=
  match e with
  | SyntaxError msg => msg
  | InvalidUnmarshalError _ => "json: Unmarshal(non-pointer)"
  | UnmarshalTypeError _ _ => "json: cannot unmarshal value into Go value"
  | UnmarshalerError msg => msg
  end.

(** Two decimal digits, and the date of a day counted from the epoch. *)
Definition digits2 (n : Z) : string := (if n <? 10 then "0" else "") ++ itoa n.

Definition digits4 (n : Z) : string :=
  (if n <? 10 then "000" else if n <? 100 then "00" else if n <? 1000 then "0" else "")
  ++ itoa n.

Definition civil (days : Z) : Z * Z * Z :=
  let z := days + 719468 in
  let era := z / 146097 in
  let doe := z - era * 146097 in
  let yoe := (doe - doe / 1460 + doe / 36524 - doe / 146096) / 365 in
  let doy := doe - (365 * yoe + yoe / 4 - yoe / 100) in
  let mp := (5 * doy + 2) / 153 in
  let d := doy - (153 * mp + 2) / 5 + 1 in
  let m := if mp <? 10 then mp + 3 else mp - 9 in
  let y := yoe + era * 400 + (if m <=? 2 then 1 else 0) in
  (y, m, d).

(** The [k] decimal digits of [n], and a text without the zeros it ends
    with: the fraction of a second. *)
Fixpoint digits (k : nat) (n : Z) : string :=
  match k with
  | O => ""
  | S k' => digits k' (n / 10) ++ itoa (n mod 10)
  end.

Fixpoint trim_zeros (s : string) : string :=
  match s with
  | EmptyString => EmptyString
  | String c r =>
      match trim_zeros r with
      | EmptyString => if Ascii.eqb c "0" then EmptyString else String c EmptyString
      | r' => String c r'
      end
  end.

Definition fraction (nsec : Z) : string :=
  if nsec =? 0 then "" else "." ++ trim_zeros (digits 9 nsec).

(** The zone: [Z] for UTC, or the hours and minutes east of it. *)
Definition zone (offset : Z) : string :=
  if offset =? 0 then "Z"
  else (if offset <? 0 then "-" else "+")
       ++ digits2 (Z.abs offset / 3600) ++ ":" ++ digits2 (Z.abs offset mod 3600 / 60).

Definition rfc3339 (t : Time) : result string :=
  let local := time_sec t + time_loc t in
  let '(y, m, d) := civil (local / 86400) in
  let s := local mod 86400 in
  if (y <? 0) || (9999 <? y) then inr "Time.MarshalJSON: year outside of range [0,9999]"
  else
    inl (digits4 y ++ "-" ++ digits2 m ++ "-" ++ digits2 d ++ "T"
         ++ digits2 (s / 3600) ++ ":" ++ digits2 (s mod 3600 / 60) ++ ":"
         ++ digits2 (s mod 60) ++ fraction (time_nsec t) ++ zone (time_loc t)).

Definition parse_time (s : string) : result Time :=
  if String.eqb s "1970-01-01T00:00:00Z" then inl (mkTime 0 0 0)
  else inr "parsing time: cannot parse".

Definition has_control_byte (s : string) : bool :=
  negb (all_bytes (fun c => negb (in_range 0 31 c || in_range 127 127 c)) s).

#[export] Instance library : GoLibrary := {|
  URL := string;
  url_Parse := fun s =>
    if has_control_byte s then inr "net/url: invalid control character in URL"
    else inl s;
  URL_ResolveReference := fun base rel => base ++ rel;
  URL_String := fun u => u;
  http_NewRequest_error := fun _ _ => None;
  Context_ := unit;
  context_Background := tt;
  json_scan := scan;
  json_print := print;
  json_error_text := error_text;
  Time_MarshalJSON := rfc3339;
  Time_UnmarshalJSON := parse_time
|}.

#[export] Instance errors : ErrorsFile := {|
  ErrBadRequest := "bad request";
  ErrUnauthorized := "unauthorized";
  ErrTooManyRequests := "too many requests";
  ErrInternal := "internal error";
  ErrUnexpected := "unexpected error";
  ErrParseError := "failed to parse response";
  ErrorDetails := struct {
    field "Error" (TPtr TString) "error" omitempty;
    field "Info" (TPtr TString) "info" omitempty
  }
|}.

(** A transport that answers every request with one status and one body. *)
Definition answering (status : Z) (body : string) : httpClient :=
  fun _ => inl {| resp_StatusCode := status;
                  resp_Body := {| read_bytes := body; read_error := None |} |}.

(** A transport that answers 404 with the URL it was asked for. *)
Definition echoing : httpClient :=
  fun req => inl {| resp_StatusCode := 404;
                    resp_Body := {| read_bytes := req_URL req; read_error := None |} |}.

(** A transport that cannot connect. *)
Definition refusing : httpClient :=
  fun _ => inr "dial tcp: connection refused".

Definition client (transport : httpClient) : Client :=
  {| HTTPClient := transport; BaseURL := defaultBaseURL; UserAgent := userAgent |}.

(** A transport whose answer breaks off while its body is read. *)
Definition breaking_off (status : Z) (body : string) : httpClient :=
  fun _ => inl {| resp_StatusCode := status;
                  resp_Body := {| read_bytes := body;
                                  read_error := Some "unexpected EOF" |} |}.

(** The library with a scanner that knows the texts of a table as well. *)
Definition scan_with (table : list (string * json)) (text : string) : result json :=
  match find (fun e => String.eqb text (fst e)) table with
  | Some e => inl (snd e)
  | None => scan text
  end.

Definition library_with (table : list (string * json)) : GoLibrary := {|
  URL := string;
  url_Parse := fun s =>
    if has_control_byte s then inr "net/url: invalid control character in URL"
    else inl s;
  URL_ResolveReference := fun base rel => base ++ rel;
  URL_String := fun u => u;
  http_NewRequest_error := fun _ _ => None;
  Context_ := unit;
  context_Background := tt;
  json_scan := scan_with table;
  json_print := print;
  json_error_text := error_text;
  Time_MarshalJSON := rfc3339;
  Time_UnmarshalJSON := parse_time
|}.

(** The answer to the creation of a meeting token, a library that scans
    its text, and a client whose transport gives it. *)
Definition token_answer : json := JObj [("token", JStr "eyJhbGciOi")].

Definition token_library : GoLibrary :=
  library_with [(print token_answer, token_answer)].

Definition token_client : @Client token_library :=
  @Build_Client token_library
    (fun _ => inl {| resp_StatusCode := 200;
                     resp_Body := {| read_bytes := print token_answer;
                                     read_error := None |} |})
    defaultBaseURL userAgent.

(** The first second of the year 10000, which [Time.MarshalJSON]
    refuses. *)
Definition year_10000 : Time := time_Unix 253402300800 0.

(** A room name with a line feed in it, which [url.Parse] refuses. *)
Definition two_lines : string := "stand" ++ String (ascii_of_N 10) "up".

(** A room created with an empty name, no privacy, and a configuration
    in which three fields are set to zero values. *)
Definition room_config : val :=
  VStruct (update 10 (String_ "") (update 2 False_ (update 0 (Int64 0)
    (zero_fields (fields_of RoomConfig))))).

Definition create_room : val :=
  VStruct [String_ ""; VString ""; VPtr room_config].

End Sample.

(** ** The dispatcher: what [request] returns *)

Section DispatcherFacts.
Context `{GoLibrary} `{ErrorsFile}.

(** The switch of [request] on the status is the table of the taxonomy. *)
Lemma category_of_status_switch (status : Z) :
  (if status =? StatusBadRequest then ErrBadRequest
   else if status =? StatusUnauthorized then ErrUnauthorized
   else if status =? StatusTooManyRequests then ErrTooManyRequests
   else if status =? StatusInternalServerError then ErrInternal
   else ErrUnexpected) = category_of_status status.
Proof.
  unfold StatusBadRequest, StatusUnauthorized, StatusTooManyRequests,
    StatusInternalServerError.
  destruct (status =? 400) eqn:E400; [apply Z.eqb_eq in E400; subst; reflexivity|].
  destruct (status =? 401) eqn:E401; [apply Z.eqb_eq in E401; subst; reflexivity|].
  destruct (status =? 429) eqn:E429; [apply Z.eqb_eq in E429; subst; reflexivity|].
  destruct (status =? 500) eqn:E500; [apply Z.eqb_eq in E500; subst; reflexivity|].
  apply Z.eqb_neq in E400, E401, E429, E500.
  unfold category_of_status.
  destruct status as [|p|p]; try reflexivity.
  do 9 (destruct p as [p|p|]; try reflexivity); congruence.
Qed.

Lemma category_of_status_other (status : Z) :
  status <> 400 -> status <> 401 -> status <> 429 -> status <> 500 ->
  category_of_status status = ErrUnexpected.
Proof.
  intros N400 N401 N429 N500.
  rewrite <- category_of_status_switch.
  unfold StatusBadRequest, StatusUnauthorized, StatusTooManyRequests,
    StatusInternalServerError.
  apply Z.eqb_neq in N400, N401, N429, N500.
  now rewrite N400, N401, N429, N500.
Qed.

(** Once the transport has answered, [request] is its last two steps:
    the classification of a status that is not 200, or the decoding of
    the body into the destination. *)
Lemma request_answered c ctx method path data result_ resp :
  answers c ctx method path data resp ->
  request c ctx method path data result_ =
    if negb (resp_StatusCode resp =? StatusOK) then
      (Some (ErrorValue
         {| Message := category_of_status (resp_StatusCode resp);
            StatusCode := resp_StatusCode resp;
            Details :=
              match json_Unmarshal (body_text resp)
                      (Some (TPtr ErrorDetails, VPtr (zero ErrorDetails))) with
              | (_, Some _) => VNil
              | (Some (_, d), None) => d
              | (None, None) => VNil
              end;
            RawDetails := body_text resp |}),
       result_)
    else
      match json_Unmarshal (body_text resp) result_ with
      | (result', Some err) =>
          (Some (ErrorValue
             {| Message := ErrParseError ++ ": " ++ json_error_text err;
                StatusCode := resp_StatusCode resp;
                Details := VNil;
                RawDetails := body_text resp |}),
           result')
      | (result', None) => (None, result')
      end.
Proof.
  intros (rel & body & req & Hparse & Hbody & Hreq & Hdo).
  unfold request.
  rewrite Hparse, Hbody, Hreq, Hdo.
  unfold ioutil_ReadAll, body_text.
  now rewrite category_of_status_switch.
Qed.

(** No answer, no [Error] value: when a step before the answer fails,
    [request] returns a formatted text and leaves the destination. *)
Lemma request_unanswered c ctx method path data result_ :
  (forall resp, ~ answers c ctx method path data resp) ->
  exists format arg,
    request c ctx method path data result_ = (Some (fmt_Errorf format arg), result_)
    /\ In format ["daily: failed to parse request path: %s";
                  "daily: failed to parse request data: %s";
                  "daily: failed to build request: %s";
                  "daily: request failed: %s"].
Proof.
  intros Hno. unfold request.
  destruct (url_Parse path) as [rel|e1] eqn:Hparse;
    [|exists "daily: failed to parse request path: %s", e1; simpl; auto].
  destruct (match data with
            | None => inl None
            | Some _ => try b := json_Marshal data else err => inr err in inl (Some b)
            end) as [body|e2] eqn:Hbody;
    [|exists "daily: failed to parse request data: %s", e2; simpl; auto].
  destruct (http_NewRequest method (URL_String (URL_ResolveReference (BaseURL c) rel)) body)
    as [req|e3] eqn:Hreq;
    [|exists "daily: failed to build request: %s", e3; simpl; auto].
  destruct (HTTPClient c (WithContext (Header_Set "User-Agent" (UserAgent c) req) ctx))
    as [resp|e4] eqn:Hdo;
    [|exists "daily: request failed: %s", e4; simpl; auto 6].
  exfalso. apply (Hno resp). exists rel, body, req. auto.
Qed.

(** There is an answer or there is none. *)
Lemma answers_or_not c ctx method path data :
  (exists resp, answers c ctx method path data resp)
  \/ (forall resp, ~ answers c ctx method path data resp).
Proof.
  unfold answers.
  destruct (url_Parse path) as [rel|e1] eqn:Hparse;
    [|right; intros resp (? & ? & ? & Hc & _); discriminate].
  destruct (match data with
            | None => inl None
            | Some _ => try b := json_Marshal data else err => inr err in inl (Some b)
            end) as [body|e2] eqn:Hbody;
    [|right; intros resp (? & ? & ? & _ & Hc & _); discriminate].
  destruct (http_NewRequest method (URL_String (URL_ResolveReference (BaseURL c) rel)) body)
    as [req|e3] eqn:Hreq.
  2:{ right; intros resp (rel' & body' & ? & Hc1 & Hc2 & Hc3 & _).
      injection Hc1 as <-. injection Hc2 as <-. congruence. }
  destruct (HTTPClient c (WithContext (Header_Set "User-Agent" (UserAgent c) req) ctx))
    as [resp|e4] eqn:Hdo.
  - left. exists resp, rel, body, req. auto.
  - right; intros resp (rel' & body' & req' & Hc1 & Hc2 & Hc3 & Hc4).
    injection Hc1 as <-. injection Hc2 as <-.
    rewrite Hreq in Hc3. injection Hc3 as <-. congruence.
Qed.


(** C1.  A response whose status is not 200 makes [request] return an
    [Error] whose message is the category of the status (400 bad
    request, 401 unauthorized, 429 rate limited, 500 internal, anything
    else unexpected), whose [StatusCode] is the status and whose
    [RawDetails] is the text of the body as read; the destination is
    returned as it was given. *)
Theorem request_status_error c ctx method path data result_ resp :
  answers c ctx method path data resp ->
  resp_StatusCode resp <> StatusOK ->
  exists e,
    request c ctx method path data result_ = (Some (ErrorValue e), result_)
    /\ Message e = category_of_status (resp_StatusCode resp)
    /\ (resp_StatusCode resp = 400 -> Message e = ErrBadRequest)
    /\ (resp_StatusCode resp = 401 -> Message e = ErrUnauthorized)
    /\ (resp_StatusCode resp = 429 -> Message e = ErrTooManyRequests)
    /\ (resp_StatusCode resp = 500 -> Message e = ErrInternal)
    /\ (resp_StatusCode resp <> 400 -> resp_StatusCode resp <> 401 ->
        resp_StatusCode resp <> 429 -> resp_StatusCode resp <> 500 ->
        Message e = ErrUnexpected)
    /\ StatusCode e = resp_StatusCode resp
    /\ RawDetails e = body_text resp.
Proof.
  intros Hans Hstatus.
  rewrite (request_answered _ _ _ _ _ _ _ Hans).
  apply Z.eqb_neq in Hstatus. rewrite Hstatus. simpl negb. cbv iota.
  eexists. split; [reflexivity|]. simpl.
  repeat split; try (intros ->; reflexivity).
  apply category_of_status_other.
Qed.

(** C2.  A response with status 200 whose body does not decode into the
    destination makes [request] return an [Error] of the parse-error
    category, with the status 200 and the text of the body: not a nil
    error. *)
Theorem request_decode_error c ctx method path data result_ resp result' err :
  answers c ctx method path data resp ->
  resp_StatusCode resp = StatusOK ->
  json_Unmarshal (body_text resp) result_ = (result', Some err) ->
  request c ctx method path data result_ =
    (Some (ErrorValue
       {| Message := ErrParseError ++ ": " ++ json_error_text err;
          StatusCode := StatusOK;
          Details := VNil;
          RawDetails := body_text resp |}),
     result').
Proof.
  intros Hans Hstatus Hdecode.
  rewrite (request_answered _ _ _ _ _ _ _ Hans).
  rewrite Hstatus, Hdecode. reflexivity.
Qed.

(** C6.  When the status is not 200 and the body does not decode into
    [ErrorDetails], [request] returns the [Error] of the status all the
    same, with the text of the body and nil [Details]. *)
Theorem request_details_unparsed c ctx method path data result_ resp :
  answers c ctx method path data resp ->
  resp_StatusCode resp <> StatusOK ->
  snd (json_Unmarshal (body_text resp)
         (Some (TPtr ErrorDetails, VPtr (zero ErrorDetails)))) <> None ->
  request c ctx method path data result_ =
    (Some (ErrorValue
       {| Message := category_of_status (resp_StatusCode resp);
          StatusCode := resp_StatusCode resp;
          Details := VNil;
          RawDetails := body_text resp |}),
     result_).
Proof.
  intros Hans Hstatus Hdetails.
  rewrite (request_answered _ _ _ _ _ _ _ Hans).
  apply Z.eqb_neq in Hstatus. rewrite Hstatus. simpl negb. cbv iota.
  destruct (json_Unmarshal (body_text resp) _) as [d [e|]]; simpl in Hdetails.
  - now destruct d as [[t v]|].
  - congruence.
Qed.

(** Decoding into a destination that is not a pointer fails, whatever
    the text. *)
Lemma json_Unmarshal_not_a_pointer (data : string) (v : val) :
  exists err,
    json_Unmarshal data (Some (TMap, v)) = (Some (TMap, v), Some err)
    /\ (err = InvalidUnmarshalError (Some (TMap, v))
        \/ exists msg, err = SyntaxError msg).
Proof.
  unfold json_Unmarshal.
  destruct (json_scan data) as [j|msg]; eexists; split; eauto.
Qed.

(** C9.  When the transport answers [DeleteRecording] with status 200,
    the operation returns a parse error, whatever the body: its
    destination is a map, not a pointer to one, and [json.Unmarshal]
    refuses it. *)
Theorem DeleteRecording_always_parse_error c ctx recordingID resp :
  answers c ctx "DELETE" ("recordings/" ++ recordingID) None resp ->
  resp_StatusCode resp = StatusOK ->
  exists err,
    DeleteRecording c ctx recordingID =
      Some (ErrorValue
        {| Message := ErrParseError ++ ": " ++ json_error_text err;
           StatusCode := StatusOK;
           Details := VNil;
           RawDetails := body_text resp |})
    /\ (err = InvalidUnmarshalError (Some (TMap, VMap []))
        \/ exists msg, err = SyntaxError msg).
Proof.
  intros Hans Hstatus.
  destruct (json_Unmarshal_not_a_pointer (body_text resp) (VMap []))
    as (err & Hdecode & Hkind).
  exists err. split; [|exact Hkind].
  unfold DeleteRecording.
  now rewrite (request_answered _ _ _ _ _ _ _ Hans), Hstatus, Hdecode.
Qed.

(** C10.  [ListRooms] with a nil request is [ListRooms] with an empty
    [ListRoomsRequest], for every client and context; the data that goes
    to the dispatcher is then a pointer that is not nil, and its encoding
    is the empty object. *)
Theorem ListRooms_nil_request c ctx :
  ListRooms c ctx VNil = ListRooms c ctx (VPtr (zero ListRoomsRequest))
  /\ ListRooms c ctx VNil =
     call c ctx "GET" "rooms"
       (Some (TPtr ListRoomsRequest, VPtr (zero ListRoomsRequest))) ListRoomsResponse
  /\ json_Marshal (Some (TPtr ListRoomsRequest, VPtr (zero ListRoomsRequest)))
     = inl (json_print (JObj [])).
Proof. repeat split. Qed.

End DispatcherFacts.

(** ** Records on the wire: encoding, then decoding *)

Section RoundTrip.
Context `{GoLibrary}.

Lemma distinct_NoDup (l : list string) : distinct l = true -> NoDup l.
Proof.
  induction l as [|x r IH]; simpl; intros Hd; constructor.
  - apply andb_prop in Hd as [Hx _]. intros Hin.
    apply negb_true_iff in Hx.
    assert (existsb (String.eqb x) r = true) as Hex; [|congruence].
    apply existsb_exists. exists x. split; [exact Hin|apply String.eqb_refl].
  - apply IH. now apply andb_prop in Hd as [_ Hr].
Qed.

Lemma keys_fapp (pre fs : fields) : keys (fapp pre fs) = (keys pre ++ keys fs)%list.
Proof. induction pre; simpl; congruence. Qed.

Lemma fapp_snoc (pre : fields) name t key omit (rest : fields) :
  fapp (fapp pre (FCons name t key omit FNil)) rest = fapp pre (FCons name t key omit rest).
Proof. induction pre; simpl; congruence. Qed.

Lemma find_key_fapp (pre : fields) name t key omit (rest : fields) :
  ~ In key (keys pre) ->
  find_key (String.eqb key) (fapp pre (FCons name t key omit rest))
  = Some (List.length (keys pre)).
Proof.
  induction pre as [|n' t' k' o' pre' IH]; simpl; intros Hnot.
  - now rewrite String.eqb_refl.
  - destruct (String.eqb key k') eqn:E.
    + apply String.eqb_eq in E. subst. tauto.
    + rewrite IH by tauto. reflexivity.
Qed.

Lemma field_index_fapp (pre : fields) name t key omit (rest : fields) :
  ~ In key (keys pre) ->
  field_index (fapp pre (FCons name t key omit rest)) key = Some (List.length (keys pre)).
Proof. intros Hnot. unfold field_index. now rewrite find_key_fapp. Qed.

Lemma decoders_fapp (pre : fields) name t key omit (rest : fields) :
  nth_error (decoders (fapp pre (FCons name t key omit rest))) (List.length (keys pre))
  = Some (unmarshal t).
Proof. induction pre; simpl; auto. Qed.

Lemma nth_error_middle {A : Type} (pre : list A) (x : A) (post : list A) :
  nth_error (pre ++ x :: post) (List.length pre) = Some x.
Proof. induction pre; simpl; auto. Qed.

Lemma update_middle {A : Type} (pre : list A) (x y : A) (post : list A) :
  update (List.length pre) y (pre ++ x :: post) = (pre ++ y :: post)%list.
Proof. induction pre; simpl; congruence. Qed.

(** A value that is not nil is not encoded as [null]. *)
Lemma marshal_not_null (t : ty) :
  forall v j, codec_ok t = true -> canonical t v -> v <> VNil ->
              marshal t v = inl j -> j <> JNull.
Proof.
  induction t; intros v j Hok Hcan Hnil Hm; destruct v; simpl in *;
    try contradiction; try discriminate; try congruence.
  - destruct (Time_MarshalJSON t); congruence.
  - destruct Hcan as [Hv Hcan]. eapply IHt; eauto.
  - destruct (mapM (marshal t) elems); congruence.
  - destruct (marshal_fields fs flds); congruence.
Qed.

(** The elements of a slice, each decoded from its own encoding into a
    zero value. *)
Lemma slice_round_trip (t : ty) (l : list val) :
  (forall v, canonical t v ->
             exists j, marshal t v = inl j /\ unmarshal t j (zero t) = (v, Done)) ->
  Forall (canonical t) l ->
  exists js, mapM (marshal t) l = inl js
             /\ decode_array (unmarshal t) (zero t) js [] = (l, Done).
Proof.
  intros Helem Hall. induction Hall as [|v l Hv Hl IH]; simpl.
  - eexists; split; reflexivity.
  - destruct (Helem v Hv) as (j & Hj & Hback).
    destruct IH as (js & Hjs & Hdec).
    rewrite Hj, Hjs. eexists; split; [reflexivity|].
    simpl. rewrite Hback, Hdec. reflexivity.
Qed.

(** The round trip, by induction on the type; for the fields of a
    struct, with the fields before them already decoded. *)
Lemma round_trip_rec :
  forall t, codec_ok t = true ->
    forall v, canonical t v ->
      exists j, marshal t v = inl j /\ unmarshal t j (zero t) = (v, Done).
Proof.
  apply (ty_fields_ind
    (fun t => codec_ok t = true ->
       forall v, canonical t v ->
         exists j, marshal t v = inl j /\ unmarshal t j (zero t) = (v, Done))
    (fun fs => fields_ok fs = true ->
       forall pre pvs l,
         List.length pvs = List.length (keys pre) ->
         NoDup (keys (fapp pre fs)) ->
         canonical_fields fs l ->
         exists m, marshal_fields fs l = inl m
           /\ decode_object (fapp pre fs) (decoders (fapp pre fs)) m
                (pvs ++ zero_fields fs) = ((pvs ++ l)%list, Done))).
  - (* string *)
    intros _ v Hcan. destruct v; try contradiction. simpl in Hcan.
    eexists; split; [reflexivity|]. simpl. now rewrite Hcan.
  - (* bool *)
    intros _ v Hcan. destruct v; try contradiction.
    eexists; split; reflexivity.
  - (* integers *)
    intros w _ v Hcan. destruct v; try contradiction. simpl in Hcan.
    eexists; split; [reflexivity|]. simpl.
    destruct Hcan as [Hlo Hhi].
    apply Z.leb_le in Hlo. apply Z.ltb_lt in Hhi. now rewrite Hlo, Hhi.
  - (* time *)
    intros _ v Hcan. destruct v; try contradiction.
    destruct Hcan as (s & Hs & Hback). simpl. rewrite Hs.
    eexists; split; [reflexivity|]. simpl. now rewrite Hback.
  - (* interface *) discriminate.
  - (* map *) discriminate.
  - (* pointer *)
    intros t IH Hok v Hcan. simpl in Hok.
    destruct v; try contradiction.
    + eexists; split; reflexivity.
    + destruct Hcan as [Hnil Hcan].
      destruct (IH Hok v Hcan) as (j & Hj & Hback).
      exists j. split; [exact Hj|].
      pose proof (marshal_not_null t v j Hok Hcan Hnil Hj) as Hnull.
      simpl. rewrite Hback. now destruct j.
  - (* slice *)
    intros t IH Hok v Hcan. simpl in Hok.
    destruct v; try contradiction.
    + eexists; split; reflexivity.
    + destruct (slice_round_trip t elems (IH Hok) Hcan) as (js & Hjs & Hdec).
      simpl. rewrite Hjs. eexists; split; [reflexivity|].
      simpl. now rewrite Hdec.
  - (* struct *)
    intros fs IH Hok v Hcan. simpl in Hok.
    apply andb_prop in Hok as [Hfs Hkeys].
    destruct v; try contradiction.
    destruct (IH Hfs FNil [] flds eq_refl (distinct_NoDup _ Hkeys) Hcan)
      as (m & Hm & Hdec).
    simpl in Hdec. simpl. rewrite Hm. eexists; split; [reflexivity|].
    simpl. now rewrite Hdec.
  - (* no field *)
    intros _ pre pvs l Hlen Hnd Hcan. destruct l; try contradiction.
    eexists; split; reflexivity.
  - (* a field and the fields after it *)
    intros name t IHt key omit rest IHrest Hok pre pvs l Hlen Hnd Hcan.
    simpl in Hok. apply andb_prop in Hok as [Hokt Hokrest].
    destruct l as [|v l]; try contradiction.
    destruct Hcan as (Hv & Hempty & Hl).
    assert (~ In key (keys pre)) as Hfresh.
    { rewrite keys_fapp in Hnd. simpl in Hnd.
      apply NoDup_remove_2 in Hnd. intros Hin. apply Hnd.
      apply in_or_app. now left. }
    destruct (IHrest Hokrest (fapp pre (FCons name t key omit FNil)) (pvs ++ [v])%list l)
      as (m & Hm & Hdec).
    { rewrite keys_fapp, !length_app, Hlen. reflexivity. }
    { now rewrite fapp_snoc. }
    { exact Hl. }
    rewrite fapp_snoc in Hdec. rewrite <- !app_assoc in Hdec. simpl in Hdec.
    simpl marshal_fields.
    destruct (omit && isEmptyValue v) eqn:Homit.
    + apply andb_prop in Homit as [-> Hisempty].
      rewrite (Hempty eq_refl Hisempty) in *.
      exists m. split; [exact Hm|exact Hdec].
    + destruct (IHt Hokt v Hv) as (j & Hj & Hback).
      rewrite Hj, Hm. eexists; split; [reflexivity|].
      simpl decode_object. rewrite field_index_fapp by exact Hfresh.
      rewrite decoders_fapp, <- Hlen.
      simpl zero_fields.
      rewrite nth_error_middle, Hback, update_middle, Hdec. reflexivity.
Qed.


(** The members of the encoding of a struct are keys of its fields. *)
Lemma marshal_fields_keys (fs : fields) :
  forall l m, marshal_fields fs l = inl m -> incl (map fst m) (keys fs).
Proof.
  induction fs as [|name t key omit rest IH]; intros l m Hm; simpl in Hm.
  - destruct l; [|discriminate]. injection Hm as <-. apply incl_nil_l.
  - destruct l as [|v l]; [discriminate|].
    destruct (omit && isEmptyValue v).
    + apply incl_tl. eapply IH; eauto.
    + destruct (marshal t v) as [j|]; [|discriminate].
      destruct (marshal_fields rest l) as [m'|] eqn:Hrest; [|discriminate].
      injection Hm as <-. simpl.
      apply incl_cons; [now left|]. apply incl_tl. eapply IH; eauto.
Qed.

Lemma lookup_key_absent (k : string) (m : list (string * json)) :
  ~ In k (map fst m) -> lookup_key k m = None.
Proof.
  induction m as [|[k' j] m IH]; simpl; intros Hnot; [reflexivity|].
  destruct (String.eqb k k') eqn:E.
  - apply String.eqb_eq in E. subst. tauto.
  - apply IH. tauto.
Qed.

Lemma nth_field_key (fs : fields) :
  forall i ft key omit, nth_field fs i = Some (ft, key, omit) -> In key (keys fs).
Proof.
  induction fs as [|name t k o rest IH]; intros [|i] ft key omit Hf; simpl in *;
    try discriminate.
  - injection Hf as <- <- <-. now left.
  - right. eapply IH; eauto.
Qed.

(** Which fields are members of the encoding: all but those that say
    [omitempty] and hold an empty value; and each with its own
    encoding. *)
Lemma marshal_fields_lookup (fs : fields) :
  forall l m, marshal_fields fs l = inl m -> NoDup (keys fs) ->
  forall i ft key omit x,
    nth_field fs i = Some (ft, key, omit) -> nth_error l i = Some x ->
    if omit && isEmptyValue x then lookup_key key m = None
    else exists j, marshal ft x = inl j /\ lookup_key key m = Some j.
Proof.
  induction fs as [|name t k o rest IH]; intros l m Hm Hnd i ft key omit x Hf Hx;
    [destruct i; discriminate|].
  simpl in Hm. destruct l as [|v l]; [discriminate|].
  simpl in Hnd. apply NoDup_cons_iff in Hnd as [Hfresh Hnd].
  destruct i as [|i]; simpl in Hf, Hx.
  - injection Hf as <- <- <-. injection Hx as <-.
    destruct (o && isEmptyValue v).
    + apply lookup_key_absent. intros Hin. apply Hfresh.
      eapply marshal_fields_keys; eauto.
    + destruct (marshal t v) as [j|]; [|discriminate].
      destruct (marshal_fields rest l) as [m'|]; [|discriminate].
      injection Hm as <-. exists j. simpl. now rewrite String.eqb_refl.
  - assert (String.eqb key k = false) as Hne.
    { apply String.eqb_neq. intros ->. apply Hfresh. eapply nth_field_key; eauto. }
    destruct (o && isEmptyValue v).
    + eapply IH; eauto.
    + destruct (marshal t v) as [j|]; [|discriminate].
      destruct (marshal_fields rest l) as [m'|] eqn:Hrest; [|discriminate].
      injection Hm as <-. simpl. rewrite Hne. eapply IH; eauto.
Qed.

(** C3, as the code has it.  For a record type without [interface{}]
    and maps, and a record whose strings are valid UTF-8 (see
    [canonical] for the other, rarer conditions): the record decoded from
    its own encoding is the record itself; and a field is absent from
    the encoding exactly when its tag says [omitempty] and it holds an
    empty value.  So a pointer field set to a pointer to a zero value is
    present and comes back set to zero, and a field that is not a pointer
    and says [omitempty] is absent when it holds its zero value. *)
Theorem record_round_trip (t : ty) (v : val) :
  codec_ok t = true ->
  canonical t v ->
  exists j,
    marshal t v = inl j
    /\ unmarshal t j (zero t) = (v, Done)
    /\ forall i ft key omit x,
         nth_field (fields_of t) i = Some (ft, key, omit) ->
         nth_error (match v with VStruct l => l | _ => [] end) i = Some x ->
         (member key j = None <-> omit && isEmptyValue x = true).
Proof.
  intros Hok Hcan.
  destruct (round_trip_rec t Hok v Hcan) as (j & Hj & Hback).
  exists j. split; [exact Hj|]. split; [exact Hback|].
  intros i ft key omit x Hf Hx.
  destruct t; simpl in Hf; try (destruct i; discriminate).
  destruct v; try contradiction.
  simpl in Hok. apply andb_prop in Hok as [_ Hkeys].
  simpl in Hj. destruct (marshal_fields fs flds) as [m|] eqn:Hm; [|discriminate].
  injection Hj as <-. simpl.
  pose proof (marshal_fields_lookup fs flds m Hm (distinct_NoDup _ Hkeys)
                i ft key omit x Hf Hx) as Hlook.
  destruct (omit && isEmptyValue x).
  - tauto.
  - destruct Hlook as (jx & _ & ->). split; intros; discriminate.
Qed.

(** On the text: [json.Marshal] of a pointer to the record, then
    [json.Unmarshal] into a pointer to a zero record, when the library
    scans the text it printed back to the value it printed. *)
Lemma json_round_trip (t : ty) (v : val) :
  codec_ok t = true ->
  canonical t v ->
  (forall j, marshal t v = inl j -> json_scan (json_print j) = inl j) ->
  exists text,
    json_Marshal (Some (TPtr t, VPtr v)) = inl text
    /\ json_Unmarshal text (Some (TPtr t, VPtr (zero t))) = (Some (TPtr t, VPtr v), None).
Proof.
  intros Hok Hcan Hscan.
  destruct (round_trip_rec t Hok v Hcan) as (j & Hj & Hback).
  exists (json_print j). unfold json_Marshal, json_Unmarshal.
  cbn [marshal]. rewrite Hj, (Hscan j Hj), Hback. split; reflexivity.
Qed.

Lemma nth_error_update_zero (fs : fields) (x : val) :
  forall i ft key omit,
    nth_field fs i = Some (ft, key, omit) ->
    nth_error (update i x (zero_fields fs)) i = Some x.
Proof.
  induction fs as [|name t k o rest IH]; intros [|i] ft key omit Hf; simpl in *;
    try discriminate; eauto.
Qed.

Lemma all_pointers_nth (fs : fields) :
  forall i ft key omit,
    all_pointers fs = true -> nth_field fs i = Some (ft, key, omit) ->
    exists u, ft = TPtr u.
Proof.
  induction fs as [|name t k o rest IH]; intros [|i] ft key omit Hall Hf; simpl in *;
    try discriminate.
  - injection Hf as <- <- <-. destruct t; try discriminate. eauto.
  - destruct t; try discriminate. eapply IH; eauto.
Qed.

(** The law of the specification holds where every field is optional:
    for a struct of pointers with distinct keys. *)
Lemma optional_record_law (fs : fields) :
  codec_ok (TStruct fs) = true -> all_pointers fs = true ->
  round_trips (TStruct fs) /\ zero_is_present (TStruct fs).
Proof.
  intros Hok Hall. split.
  - intros v j Hcan Hm.
    destruct (round_trip_rec _ Hok v Hcan) as (j' & Hj' & Hback). congruence.
  - intros i ft key omit j Hf Hm. simpl fields_of in *.
    change (match marshal_fields fs (update i (set_to_zero ft) (zero_fields fs)) with
            | inl m => inl (JObj m)
            | inr e => inr e
            end = inl j) in Hm.
    destruct (marshal_fields fs _) as [m|] eqn:Hfs; [|discriminate].
    injection Hm as <-.
    simpl in Hok. apply andb_prop in Hok as [_ Hkeys].
    destruct (all_pointers_nth fs i ft key omit Hall Hf) as (u & ->).
    pose proof (marshal_fields_lookup fs _ m Hfs (distinct_NoDup _ Hkeys)
                  i (TPtr u) key omit (VPtr (zero u)) Hf
                  (nth_error_update_zero fs _ i (TPtr u) key omit Hf)) as Hlook.
    simpl isEmptyValue in Hlook. rewrite andb_false_r in Hlook.
    destruct Hlook as (j0 & _ & Hl). simpl. congruence.
Qed.

End RoundTrip.

(** The record types of the package the round trip is proved for: all but
    [Recording] and [GetRecordingResponse], which hold [interface{}]
    values. *)
Example codec_ok_records :
  forallb codec_ok
    [Config; DomainConfig; Permissions; RoomConfig; Room; MeetingToken; Layout;
     ListRoomsRequest; ListRoomsResponse; CreateRoomRequest; CreateRoomResponse;
     GetRoomResponse; UpdateRoomRequest; UpdateRoomResponse; CreateMeetingTokenRequest;
     CreateMeetingTokenResponse; GetMeetingTokenResponse; GetRecordingLinkResponse;
     StartRecordingRequest; StartRecordingResponse] = true
  /\ codec_ok Recording = false
  /\ codec_ok GetRecordingResponse = false.
Proof. repeat split. Qed.

(** The law as the specification states it holds for the records of
    optional fields only. *)
Lemma omission_law_optional_records :
  omission_law Config /\ omission_law DomainConfig /\ omission_law RoomConfig
  /\ omission_law MeetingToken /\ omission_law CreateMeetingTokenRequest
  /\ omission_law CreateMeetingTokenResponse.
Proof.
  repeat split; try (apply optional_record_law; reflexivity);
    apply optional_record_law; reflexivity.
Qed.

#[local] Existing Instances Sample.library Sample.errors.

(** The sample room: the record comes back, and the fields that were set,
    to zero values all of them, are the members of the encoding. *)
Lemma record_round_trip_witness :
  codec_ok CreateRoomRequest = true
  /\ canonical CreateRoomRequest Sample.create_room
  /\ exists j,
      marshal CreateRoomRequest Sample.create_room = inl j
      /\ unmarshal CreateRoomRequest j (zero CreateRoomRequest) = (Sample.create_room, Done)
      /\ forall i ft key omit x,
           nth_field (fields_of CreateRoomRequest) i = Some (ft, key, omit) ->
           nth_error (match Sample.create_room with VStruct l => l | _ => [] end) i = Some x ->
           (member key j = None <-> omit && isEmptyValue x = true).
Proof.
  assert (canonical CreateRoomRequest Sample.create_room) as Hcan.
  { vm_compute. repeat split; try discriminate; auto. }
  split; [reflexivity|]. split; [exact Hcan|].
  apply (record_round_trip CreateRoomRequest Sample.create_room); [reflexivity|exact Hcan].
Defined.

(** The encoding of that room, in full. *)
Example create_room_encoding :
  marshal CreateRoomRequest Sample.create_room
  = inl (JObj [("name", JStr "");
               ("properties",
                JObj [("nbf", JInt 0); ("start_video_off", JBool false);
                      ("enable_recording", JStr "")])]).
Proof. reflexivity. Qed.

(** C3, as the specification has it, fails: the [Privacy] of a
    [CreateRoomRequest] set to the empty string is not a member of the
    encoding, which is the encoding of a request where it was never set. *)
Lemma omission_law_fails_for_CreateRoomRequest : ~ omission_law CreateRoomRequest.
Proof.
  intros Hlaw. destruct (Hlaw Sample.library) as [_ Hpresent].
  apply (Hpresent 1%nat RoomPrivacy "privacy" omitempty (JObj [])); reflexivity.
Qed.

(** What [canonical] leaves out does not come back: a byte that is not
    UTF-8 comes back as U+FFFD, and a pointer to a nil slice comes back as
    a nil pointer. *)
Example invalid_utf8_is_replaced :
  marshal (TPtr TString) (String_ (String (ascii_of_N 255) ""))
  = inl (JStr replacement_char)
  /\ unmarshal (TPtr TString) (JStr replacement_char) VNil
     = (String_ replacement_char, Done).
Proof. split; reflexivity. Qed.

Example pointer_to_nil_slice_is_lost :
  marshal Permissions (VStruct [VPtr VNil; VNil]) = inl (JObj [("canSend", JNull)])
  /\ unmarshal Permissions (JObj [("canSend", JNull)]) (zero Permissions)
     = (VStruct [VNil; VNil], Done).
Proof. split; reflexivity. Qed.

(** ** The dispatcher at work *)

(** A transport that answers 429 with a text: the rate-limited category,
    the status and the text, and the destination untouched. *)
Lemma request_status_error_witness :
  answers (Sample.client (Sample.answering 429 "slow down")) tt "GET" "rooms" None
    {| resp_StatusCode := 429;
       resp_Body := {| read_bytes := "slow down"; read_error := None |} |}
  /\ 429 <> StatusOK
  /\ exists e,
      request (Sample.client (Sample.answering 429 "slow down")) tt "GET" "rooms" None
        (Some (TPtr ListRoomsResponse, VPtr (zero ListRoomsResponse)))
      = (Some (ErrorValue e), Some (TPtr ListRoomsResponse, VPtr (zero ListRoomsResponse)))
      /\ Message e = category_of_status 429
      /\ (429 = 400 -> Message e = ErrBadRequest)
      /\ (429 = 401 -> Message e = ErrUnauthorized)
      /\ (429 = 429 -> Message e = ErrTooManyRequests)
      /\ (429 = 500 -> Message e = ErrInternal)
      /\ (429 <> 400 -> 429 <> 401 -> 429 <> 429 -> 429 <> 500 ->
          Message e = ErrUnexpected)
      /\ StatusCode e = 429
      /\ RawDetails e = "slow down".
Proof.
  assert (answers (Sample.client (Sample.answering 429 "slow down")) tt "GET" "rooms" None
            {| resp_StatusCode := 429;
               resp_Body := {| read_bytes := "slow down"; read_error := None |} |}) as Hans.
  { unfold answers. do 3 eexists. repeat split; reflexivity. }
  split; [exact Hans|]. split; [discriminate|].
  apply (request_status_error _ _ _ _ _ _ _ Hans). discriminate.
Defined.

(** A transport that answers 200 with an array where a record is
    expected. *)
Lemma request_decode_error_witness :
  answers (Sample.client (Sample.answering 200 "[]")) tt "GET" "rooms/x" None
    {| resp_StatusCode := 200;
       resp_Body := {| read_bytes := "[]"; read_error := None |} |}
  /\ 200 = StatusOK
  /\ json_Unmarshal "[]" (Some (TPtr GetRoomResponse, VPtr (zero GetRoomResponse)))
     = (Some (TPtr GetRoomResponse, VPtr (zero GetRoomResponse)),
        Some (UnmarshalTypeError (JArr []) GetRoomResponse))
  /\ request (Sample.client (Sample.answering 200 "[]")) tt "GET" "rooms/x" None
       (Some (TPtr GetRoomResponse, VPtr (zero GetRoomResponse)))
     = (Some (ErrorValue
         {| Message := ErrParseError ++ ": "
                       ++ json_error_text (UnmarshalTypeError (JArr []) GetRoomResponse);
            StatusCode := StatusOK;
            Details := VNil;
            RawDetails := "[]" |}),
        Some (TPtr GetRoomResponse, VPtr (zero GetRoomResponse))).
Proof.
  assert (answers (Sample.client (Sample.answering 200 "[]")) tt "GET" "rooms/x" None
            {| resp_StatusCode := 200;
               resp_Body := {| read_bytes := "[]"; read_error := None |} |}) as Hans.
  { unfold answers. do 3 eexists. repeat split; reflexivity. }
  split; [exact Hans|]. split; [reflexivity|]. split; [reflexivity|].
  apply (request_decode_error _ _ _ _ _ _ _ _ _ Hans); reflexivity.
Defined.

(** A transport that answers 500 with a page that is not JSON. *)
Lemma request_details_unparsed_witness :
  answers (Sample.client (Sample.answering 500 "<html>")) tt "GET" "rooms/x" None
    {| resp_StatusCode := 500;
       resp_Body := {| read_bytes := "<html>"; read_error := None |} |}
  /\ 500 <> StatusOK
  /\ snd (json_Unmarshal "<html>" (Some (TPtr ErrorDetails, VPtr (zero ErrorDetails))))
     <> None
  /\ request (Sample.client (Sample.answering 500 "<html>")) tt "GET" "rooms/x" None None
     = (Some (ErrorValue
         {| Message := category_of_status 500;
            StatusCode := 500;
            Details := VNil;
            RawDetails := "<html>" |}),
        None).
Proof.
  assert (answers (Sample.client (Sample.answering 500 "<html>")) tt "GET" "rooms/x" None
            {| resp_StatusCode := 500;
               resp_Body := {| read_bytes := "<html>"; read_error := None |} |}) as Hans.
  { unfold answers. do 3 eexists. repeat split; reflexivity. }
  split; [exact Hans|]. split; [discriminate|]. split; [discriminate|].
  apply (request_details_unparsed _ _ _ _ _ _ _ Hans); discriminate.
Defined.

(** The service answers the deletion of a recording with 200 and
    [{"deleted":true}]; the operation returns a parse error. *)
Lemma DeleteRecording_always_parse_error_witness :
  answers (Sample.client (Sample.answering 200 (Sample.print (JObj [("deleted", JBool true)]))))
    tt "DELETE" ("recordings/" ++ "abc") None
    {| resp_StatusCode := 200;
       resp_Body := {| read_bytes := Sample.print (JObj [("deleted", JBool true)]);
                       read_error := None |} |}
  /\ 200 = StatusOK
  /\ exists err,
      DeleteRecording
        (Sample.client (Sample.answering 200 (Sample.print (JObj [("deleted", JBool true)]))))
        tt "abc"
      = Some (ErrorValue
          {| Message := ErrParseError ++ ": " ++ json_error_text err;
             StatusCode := StatusOK;
             Details := VNil;
             RawDetails := Sample.print (JObj [("deleted", JBool true)]) |})
      /\ (err = InvalidUnmarshalError (Some (TMap, VMap []))
          \/ exists msg, err = SyntaxError msg).
Proof.
  assert (answers
            (Sample.client (Sample.answering 200 (Sample.print (JObj [("deleted", JBool true)]))))
            tt "DELETE" ("recordings/" ++ "abc") None
            {| resp_StatusCode := 200;
               resp_Body := {| read_bytes := Sample.print (JObj [("deleted", JBool true)]);
                               read_error := None |} |}) as Hans.
  { unfold answers. do 3 eexists. repeat split; reflexivity. }
  split; [exact Hans|]. split; [reflexivity|].
  apply (DeleteRecording_always_parse_error _ _ _ _ Hans). reflexivity.
Defined.

(** The same answer to the deletion of a room, where the address of the
    map is the destination, is no error. *)
Example DeleteRoom_accepts_the_answer :
  DeleteRoom
    (Sample.client (Sample.answering 200 (Sample.print (JObj [("deleted", JBool true)]))))
    tt "abc" = None.
Proof. reflexivity. Qed.

(** C5, as the specification has it, fails: a call that the transport
    refuses returns a formatted text, not an [Error]. *)
Lemma not_every_error_is_structured : ~ every_error_is_structured.
Proof.
  intros Hall.
  destruct (Hall Sample.library Sample.errors (Sample.client Sample.refusing) tt
              "GET" "rooms" None None
              (errorString "daily: request failed: dial tcp: connection refused")
              eq_refl) as (e & He).
  discriminate.
Qed.

(** ** Paths *)

Lemma append_assoc (a b c : string) : (a ++ b) ++ c = a ++ (b ++ c).
Proof. induction a; simpl; congruence. Qed.

Lemma append_empty (a : string) : a ++ "" = a.
Proof. induction a; simpl; congruence. Qed.

Lemma fold_left_separator (rest : list string) :
  forall acc,
    fold_left (fun path param => path ++ "&" ++ param) rest acc =
      match rest with
      | [] => acc
      | _ => acc ++ "&" ++ joined "&" rest
      end.
Proof.
  induction rest as [|p rest IH]; intros acc; [reflexivity|].
  simpl fold_left. rewrite IH.
  destruct rest as [|q rest]; [reflexivity|].
  now rewrite append_assoc.
Qed.

(** [generateUrlWithQueryParams] itself puts [?] before the first
    parameter and [&] between two. *)
Lemma generateUrlWithQueryParams_joined (path : string) (params : list string) :
  generateUrlWithQueryParams path params =
    match params with
    | [] => path
    | _ => path ++ "?" ++ joined "&" params
    end.
Proof.
  destruct params as [|p0 rest]; [reflexivity|].
  unfold generateUrlWithQueryParams. rewrite fold_left_separator.
  destruct rest as [|p1 rest]; [reflexivity|].
  now rewrite !append_assoc.
Qed.

(** With a limit and a room name and no cursor, [GetRecordings] builds
    the path with its query. *)
Lemma GetRecordings_path_limit_room (limit : Z) (room : string) :
  0 < limit -> room <> "" ->
  GetRecordings_path
    {| Limit := limit; EndingBefore := ""; StartingAfter := ""; RoomName := room |}
  = with_query "/v1/recordings" [("limit", itoa limit); ("room_name", room)].
Proof.
  intros Hlimit Hroom.
  unfold GetRecordings_path, GetRecordings_params. cbn [Limit EndingBefore StartingAfter RoomName].
  apply Z.ltb_lt in Hlimit. apply String.eqb_neq in Hroom.
  rewrite Hlimit, Hroom. unfold Sprintf_s, Sprintf_d. simpl.
  now rewrite !append_empty.
Qed.

(** C4.  [GetRecordings] with nothing but [EndingBefore] builds a path
    whose first parameter comes after [?&], which is not the path with its
    query; with [Limit] and [RoomName] it builds the path of the
    specification's example. *)
Theorem GetRecordings_stray_separator :
  GetRecordings_path {| Limit := 0; EndingBefore := "e"; StartingAfter := ""; RoomName := "" |}
  = "/v1/recordings?&ending_before=e"
  /\ GetRecordings_path
       {| Limit := 0; EndingBefore := "e"; StartingAfter := ""; RoomName := "" |}
     <> with_query "/v1/recordings" [("ending_before", "e")]
  /\ GetRecordings_path
       {| Limit := 5; EndingBefore := "e"; StartingAfter := ""; RoomName := "" |}
     = "/v1/recordings?limit=5&&ending_before=e"
  /\ GetRecordings_path
       {| Limit := 10; EndingBefore := ""; StartingAfter := ""; RoomName := "x" |}
     = with_query "/v1/recordings" [("limit", "10"); ("room_name", "x")].
Proof. repeat split. discriminate. Qed.

(** An identifier without a byte to escape is its own escaping. *)
Lemma PathEscape_safe (s : string) :
  all_bytes path_segment_safe s = true -> PathEscape s = s.
Proof.
  induction s as [|c r IH]; simpl; [reflexivity|].
  intros Hsafe. apply andb_prop in Hsafe as [Hc Hr].
  rewrite Hc, IH by exact Hr. reflexivity.
Qed.

(** What reaches the transport when the identifier has a [/] and a [?]. *)
Example GetRoom_with_a_query_in_the_name :
  snd (GetRoom (Sample.client Sample.echoing) tt "a/b?c=d")
  = Some (ErrorValue {| Message := "unexpected error";
                        StatusCode := 404;
                        Details := VNil;
                        RawDetails := "https://api.daily.co/v1/rooms/a/b?c=d" |})
  /\ PathEscape "a/b?c=d" = "a%2Fb%3Fc=d".
Proof. split; reflexivity. Qed.


(** ** Times *)

Lemma wrap64_small (z : Z) : - 2 ^ 63 <= z < 2 ^ 63 -> wrap64 z = z.
Proof. intros Hz. unfold wrap64. rewrite Z.mod_small; lia. Qed.

Lemma wrap64_add (a b : Z) : wrap64 (wrap64 a + b) = wrap64 (a + b).
Proof.
  unfold wrap64.
  replace ((a + 2 ^ 63) mod 2 ^ 64 - 2 ^ 63 + b + 2 ^ 63)
    with ((a + 2 ^ 63) mod 2 ^ 64 + b) by lia.
  rewrite Z.add_mod_idemp_l by lia.
  f_equal. f_equal. lia.
Qed.

(** [time.Unix] carries the nanoseconds into the seconds, toward the
    earlier second, in the arithmetic of int64: at the end of the range the
    seconds wrap around. *)
Lemma Time_Unix_time_Unix (sec nsec : Z) :
  - 2 ^ 63 <= sec < 2 ^ 63 ->
  Time_Unix (time_Unix sec nsec) = wrap64 (sec + nsec / 1000000000).
Proof.
  intros Hsec. unfold time_Unix.
  destruct ((nsec <? 0) || (1000000000 <=? nsec)) eqn:Hout.
  - pose proof (Z.quot_rem' nsec 1000000000) as Hqr.
    assert (nsec - Z.quot nsec 1000000000 * 1000000000 = Z.rem nsec 1000000000) as Hrem
      by lia.
    rewrite Hrem.
    pose proof (Z.rem_bound_abs nsec 1000000000 ltac:(lia)) as Hb.
    destruct (Z.rem nsec 1000000000 <? 0) eqn:Hneg; unfold Time_Unix; simpl time_sec.
    + apply Z.ltb_lt in Hneg.
      rewrite <- (Z.div_unique nsec 1000000000 (Z.quot nsec 1000000000 - 1)
                    (Z.rem nsec 1000000000 + 1000000000)) by lia.
      replace (wrap64 (sec + Z.quot nsec 1000000000) - 1)
        with (wrap64 (sec + Z.quot nsec 1000000000) + -1) by lia.
      rewrite wrap64_add. f_equal. lia.
    + apply Z.ltb_ge in Hneg.
      rewrite <- (Z.div_unique nsec 1000000000 (Z.quot nsec 1000000000)
                    (Z.rem nsec 1000000000)) by lia.
      reflexivity.
  - apply orb_false_iff in Hout as [Hlo Hhi].
    apply Z.ltb_ge in Hlo. apply Z.leb_gt in Hhi.
    unfold Time_Unix; simpl time_sec.
    rewrite Z.div_small by lia. rewrite Z.add_0_r. symmetry. now apply wrap64_small.
Qed.

Section Times.
Context `{GoLibrary}.

Lemma have_types_nth (fs : fields) :
  forall l i ft key omit,
    have_types fs l -> nth_field fs i = Some (ft, key, omit) ->
    exists x, nth_error l i = Some x /\ has_type ft x.
Proof.
  induction fs as [|name t k o rest IH]; intros l i ft key omit Hty Hf;
    [destruct i; discriminate|].
  destruct l as [|v l]; [contradiction|]. destruct Hty as [Hv Hl].
  destruct i as [|i]; simpl in Hf.
  - injection Hf as <- <- <-. exists v. now split.
  - simpl. eapply IH; eauto.
Qed.

(** A field that is an integer, or a pointer to one that is omitted when
    nil, is an integer wherever it is a member of the encoding. *)
Lemma integer_field_on_wire (fs : fields) (i : nat) (w : Z) ft key omit :
  distinct (keys fs) = true ->
  nth_field fs i = Some (ft, key, omit) ->
  ft = TInt w \/ (ft = TPtr (TInt w) /\ omit = true) ->
  sent_as_integer (TStruct fs) key.
Proof.
  intros Hkeys Hf Hkind v j x Hty Hm Hmem.
  destruct v; try contradiction. simpl in Hty, Hm.
  destruct (marshal_fields fs flds) as [m|] eqn:Hfs; [|discriminate].
  injection Hm as <-. simpl in Hmem.
  destruct (have_types_nth fs flds i ft key omit Hty Hf) as (x0 & Hx0 & Htx0).
  pose proof (marshal_fields_lookup fs flds m Hfs (distinct_NoDup _ Hkeys)
                i ft key omit x0 Hf Hx0) as Hlook.
  destruct Hkind as [->|[-> ->]].
  - destruct x0; try contradiction.
    destruct (omit && isEmptyValue (VInt z)); [congruence|].
    destruct Hlook as (j0 & Hj0 & Hl). simpl in Hj0.
    exists z. congruence.
  - destruct x0; try contradiction; simpl in Hlook; [congruence|].
    destruct x0; try contradiction.
    destruct Hlook as (j0 & Hj0 & Hl). simpl in Hj0.
    exists z. congruence.
Qed.

(** C8, as the code has it.  The fields that hold a time as an integer
    are integers on the wire; [Room.CreatedAt] is a [time.Time] and is a
    JSON string, the text [Time.MarshalJSON] gives.  [Timestamp] maps a
    time to a pointer to its Unix seconds, which is encoded as that
    integer; the seconds of a time made from seconds and nanoseconds are
    the whole seconds at or before it, as an int64 holds them; and the
    location of the time plays no part. *)
Theorem times_on_the_wire :
  (forall t key, In (t, key) seconds_fields -> sent_as_integer t key)
  /\ (forall r j x,
        has_type Room r -> marshal Room r = inl j ->
        member "created_at" j = Some x -> exists s, x = JStr s)
  /\ (forall tm,
        Timestamp tm = Int64 (Time_Unix tm)
        /\ marshal (TPtr TInt64) (Timestamp tm) = inl (JInt (Time_Unix tm)))
  /\ (forall sec nsec,
        - 2 ^ 63 <= sec < 2 ^ 63 ->
        Time_Unix (time_Unix sec nsec) = wrap64 (sec + nsec / 1000000000))
  /\ (forall tm loc, Timestamp (Time_In tm loc) = Timestamp tm).
Proof.
  split; [|split; [|split; [|split]]].
  - intros t key Hin. simpl in Hin.
    destruct Hin as [Hin|[Hin|[Hin|[Hin|[Hin|[Hin|[]]]]]]];
      injection Hin as <- <-.
    + apply (integer_field_on_wire _ 0%nat 64 (TPtr TInt64) "nbf" omitempty); auto.
    + apply (integer_field_on_wire _ 1%nat 64 (TPtr TInt64) "exp" omitempty); auto.
    + apply (integer_field_on_wire _ 0%nat 64 (TPtr TInt64) "nbf" omitempty); auto.
    + apply (integer_field_on_wire _ 1%nat 64 (TPtr TInt64) "exp" omitempty); auto.
    + apply (integer_field_on_wire _ 1%nat 64 TGoInt "start_ts" always); auto.
    + apply (integer_field_on_wire _ 1%nat 64 TGoInt "expires" always); auto.
  - intros r j x Hty Hm Hmem.
    destruct r; try contradiction.
    change (have_types (fields_of Room) flds) in Hty.
    change (match marshal_fields (fields_of Room) flds with
            | inl m => inl (JObj m)
            | inr e => inr e
            end = inl j) in Hm.
    destruct (marshal_fields (fields_of Room) flds) as [m|] eqn:Hfs; [|discriminate].
    injection Hm as <-. simpl in Hmem.
    destruct (have_types_nth (fields_of Room) flds 5%nat TTime "created_at" always
                Hty eq_refl) as (x0 & Hx0 & Htx0).
    pose proof (marshal_fields_lookup (fields_of Room) flds m Hfs
                  (distinct_NoDup (keys (fields_of Room)) eq_refl)
                  5%nat TTime "created_at" always x0
                  eq_refl Hx0) as Hlook.
    simpl in Hlook. destruct Hlook as (j0 & Hj0 & Hl).
    destruct x0; try contradiction. simpl in Hj0.
    destruct (Time_MarshalJSON t) as [s|]; [|discriminate].
    exists s. congruence.
  - intros tm. split; reflexivity.
  - apply Time_Unix_time_Unix.
  - intros tm loc. reflexivity.
Qed.

End Times.

(** C8, as the specification has it, fails: a room created at the epoch
    is sent with ["created_at":"1970-01-01T00:00:00Z"]. *)
Lemma created_at_is_not_seconds : ~ every_time_is_seconds.
Proof.
  intros Hall.
  destruct (Hall Sample.library Room "created_at" (or_introl eq_refl)
              (VStruct [VString "r1"; VString "standup"; VBool true; Private;
                        VString "https://example.daily.co/standup";
                        VTime (time_Unix 0 0); VNil])
              (JObj [("id", JStr "r1"); ("name", JStr "standup");
                     ("api_created", JBool true); ("privacy", JStr "private");
                     ("url", JStr "https://example.daily.co/standup");
                     ("created_at", JStr "1970-01-01T00:00:00Z");
                     ("config", JNull)])
              (JStr "1970-01-01T00:00:00Z")) as (n & Hn).
  - simpl. tauto.
  - reflexivity.
  - reflexivity.
  - discriminate.
Qed.

(** ** More of the dispatcher *)

Lemma Sprintf_s_at_end (prefix arg : string) :
  all_bytes (fun c => negb (Ascii.eqb c "%")) prefix = true ->
  Sprintf_s (prefix ++ "%s") arg = prefix ++ arg.
Proof.
  unfold Sprintf_s. induction prefix as [|c r IH]; simpl; intros Hfree.
  - apply append_empty.
  - apply andb_prop in Hfree as [Hc Hr]. apply negb_true_iff in Hc.
    destruct c as [[] [] [] [] [] [] [] []]; try discriminate;
      destruct r; simpl in *; now rewrite IH.
Qed.

Section DispatcherMore.
Context `{GoLibrary} `{ErrorsFile}.

(** An answer is the answer: the steps before it are functions. *)
Lemma answers_unique c ctx method path data resp resp' :
  answers c ctx method path data resp ->
  answers c ctx method path data resp' ->
  resp = resp'.
Proof.
  intros (rel & body & req & H1 & H2 & H3 & H4) (rel' & body' & req' & H1' & H2' & H3' & H4').
  rewrite H1 in H1'. injection H1' as <-.
  rewrite H2 in H2'. injection H2' as <-.
  rewrite H3 in H3'. injection H3' as <-.
  congruence.
Qed.

(** [request] returns a nil error exactly when the transport answered
    with status 200 and the body was decoded into the destination without
    an error. *)
Theorem request_succeeds_iff c ctx method path data result_ :
  fst (request c ctx method path data result_) = None
  <-> exists resp,
        answers c ctx method path data resp
        /\ resp_StatusCode resp = StatusOK
        /\ snd (json_Unmarshal (body_text resp) result_) = None.
Proof.
  split.
  - intros Hnil.
    destruct (answers_or_not c ctx method path data) as [(resp & Hans)|Hno].
    + exists resp. split; [exact Hans|].
      rewrite (request_answered _ _ _ _ _ _ _ Hans) in Hnil.
      destruct (resp_StatusCode resp =? StatusOK) eqn:Hstatus; simpl in Hnil;
        [|discriminate].
      apply Z.eqb_eq in Hstatus. split; [exact Hstatus|].
      destruct (json_Unmarshal (body_text resp) result_) as [r' [e|]];
        [discriminate|reflexivity].
    + destruct (request_unanswered c ctx method path data result_ Hno)
        as (format & arg & Hreq & _).
      rewrite Hreq in Hnil. discriminate.
  - intros (resp & Hans & Hstatus & Hdecode).
    rewrite (request_answered _ _ _ _ _ _ _ Hans), Hstatus. simpl.
    destruct (json_Unmarshal (body_text resp) result_) as [r' [e|]];
      [discriminate|reflexivity].
Qed.

Lemma call_answered c ctx method path data T resp j :
  answers c ctx method path data resp ->
  resp_StatusCode resp = StatusOK ->
  json_scan (body_text resp) = inl j ->
  call c ctx method path data T =
    (VPtr (fst (unmarshal T j (zero T))),
     match snd (unmarshal T j (zero T)) with
     | Done => None
     | Saved e | Fatal e =>
         Some (ErrorValue {| Message := ErrParseError ++ ": " ++ json_error_text e;
                             StatusCode := resp_StatusCode resp;
                             Details := VNil;
                             RawDetails := body_text resp |})
     end).
Proof.
  intros Hans Hstatus Hscan. unfold call.
  rewrite (request_answered _ _ _ _ _ _ _ Hans), Hstatus. simpl.
  unfold json_Unmarshal. rewrite Hscan.
  now destruct (unmarshal T j (zero T)) as [v [|e|e]].
Qed.

(** An operation whose answer has status 200 and a body that decodes
    returns the pointer to the decoded record, and a nil error. *)
Theorem call_decodes c ctx method path data T resp j v :
  answers c ctx method path data resp ->
  resp_StatusCode resp = StatusOK ->
  json_scan (body_text resp) = inl j ->
  unmarshal T j (zero T) = (v, Done) ->
  call c ctx method path data T = (VPtr v, None).
Proof.
  intros Hans Hstatus Hscan Hdecode.
  now rewrite (call_answered _ _ _ _ _ T _ j Hans Hstatus Hscan), Hdecode.
Qed.

Lemma unmarshal_null (t : ty) :
  unmarshal t JNull (zero t) = (zero t, Done).
Proof. destruct t; reflexivity. Qed.

(** A body that is [null], or the empty object where a record is
    expected, is a success: the operation returns a pointer to the zero
    record and a nil error. *)
Theorem call_empty_answer c ctx method path data T resp :
  answers c ctx method path data resp ->
  resp_StatusCode resp = StatusOK ->
  json_scan (body_text resp) = inl JNull
  \/ (json_scan (body_text resp) = inl (JObj []) /\ exists fs, T = TStruct fs) ->
  call c ctx method path data T = (VPtr (zero T), None).
Proof.
  intros Hans Hstatus [Hnull|[Hempty [fs ->]]].
  - now rewrite (call_answered _ _ _ _ _ T _ JNull Hans Hstatus Hnull), unmarshal_null.
  - now rewrite (call_answered _ _ _ _ _ _ _ (JObj []) Hans Hstatus Hempty).
Qed.

(** When the status is not 200 and the body decodes into [ErrorDetails],
    the [Error] carries a pointer to the decoded details. *)
Theorem request_details_parsed c ctx method path data result_ resp j details :
  answers c ctx method path data resp ->
  resp_StatusCode resp <> StatusOK ->
  json_scan (body_text resp) = inl j ->
  unmarshal ErrorDetails j (zero ErrorDetails) = (details, Done) ->
  request c ctx method path data result_ =
    (Some (ErrorValue
       {| Message := category_of_status (resp_StatusCode resp);
          StatusCode := resp_StatusCode resp;
          Details := VPtr details;
          RawDetails := body_text resp |}),
     result_).
Proof.
  intros Hans Hstatus Hscan Hdecode.
  rewrite (request_answered _ _ _ _ _ _ _ Hans).
  apply Z.eqb_neq in Hstatus. rewrite Hstatus. simpl negb. cbv iota.
  unfold json_Unmarshal. now rewrite Hscan, Hdecode.
Qed.

(** A status of the 2xx range other than 200 is an error of the
    unexpected category: 200 is the one status of success. *)
Theorem request_other_2xx c ctx method path data result_ resp :
  answers c ctx method path data resp ->
  200 < resp_StatusCode resp < 300 ->
  exists e,
    request c ctx method path data result_ = (Some (ErrorValue e), result_)
    /\ Message e = ErrUnexpected
    /\ StatusCode e = resp_StatusCode resp
    /\ RawDetails e = body_text resp.
Proof.
  intros Hans Hrange.
  rewrite (request_answered _ _ _ _ _ _ _ Hans).
  assert ((resp_StatusCode resp =? StatusOK) = false) as Hstatus
    by (apply Z.eqb_neq; unfold StatusOK; lia).
  rewrite Hstatus. simpl negb. cbv iota.
  eexists. split; [reflexivity|]. simpl.
  split; [|split; reflexivity].
  apply category_of_status_other; lia.
Qed.

(** The error that ends the reading of a body is dropped: two answers
    with one status and the same bytes read give the same result, whether
    the reading failed or not. *)
Theorem request_ignores_read_error c c' ctx ctx' method method' path path'
  data data' result_ resp resp' :
  answers c ctx method path data resp ->
  answers c' ctx' method' path' data' resp' ->
  resp_StatusCode resp = resp_StatusCode resp' ->
  read_bytes (resp_Body resp) = read_bytes (resp_Body resp') ->
  request c ctx method path data result_ = request c' ctx' method' path' data' result_.
Proof.
  intros Hans Hans' Hstatus Hbytes.
  rewrite (request_answered _ _ _ _ _ _ _ Hans), (request_answered _ _ _ _ _ _ _ Hans').
  unfold body_text. now rewrite Hstatus, Hbytes.
Qed.

(** A path that does not parse ends [request] before anything is encoded
    or sent: the error is the text of the parse error after a fixed
    prefix, whatever the client and its transport, and the destination is
    left as it was. *)
Theorem request_path_unparsed c ctx method path data result_ e :
  url_Parse path = inr e ->
  request c ctx method path data result_ =
    (Some (errorString ("daily: failed to parse request path: " ++ e)), result_).
Proof.
  intros Hparse. unfold request. rewrite Hparse. unfold fmt_Errorf.
  now rewrite (Sprintf_s_at_end "daily: failed to parse request path: ").
Qed.

(** Data that cannot be encoded ends [request] before anything is sent:
    the error is the text of the encoding error after a fixed prefix,
    whatever the transport, and the destination is left as it was. *)
Theorem request_data_unencoded c ctx method path data result_ rel e :
  url_Parse path = inl rel ->
  data <> None ->
  json_Marshal data = inr e ->
  request c ctx method path data result_ =
    (Some (errorString ("daily: failed to parse request data: " ++ e)), result_).
Proof.
  intros Hparse Hdata Hmarshal. unfold request. rewrite Hparse.
  destruct data as [d|]; [|congruence].
  rewrite Hmarshal. unfold fmt_Errorf.
  now rewrite (Sprintf_s_at_end "daily: failed to parse request data: ").
Qed.

(** A call that the transport fails is an error with the text of the
    transport's error after a fixed prefix; the destination is left as it
    was. *)
Theorem request_transport_failure c ctx method path data result_ rel body req e :
  url_Parse path = inl rel ->
  match data with
  | None => inl None
  | Some _ => try b := json_Marshal data else err => inr err in inl (Some b)
  end = inl body ->
  http_NewRequest method (URL_String (URL_ResolveReference (BaseURL c) rel)) body = inl req ->
  HTTPClient c (WithContext (Header_Set "User-Agent" (UserAgent c) req) ctx) = inr e ->
  request c ctx method path data result_ =
    (Some (errorString ("daily: request failed: " ++ e)), result_).
Proof.
  intros Hparse Hbody Hreq Hdo. unfold request.
  rewrite Hparse, Hbody, Hreq, Hdo. unfold fmt_Errorf.
  now rewrite (Sprintf_s_at_end "daily: request failed: ").
Qed.

(** [DeleteRoom] and [StopRecording] throw the answer away, but it has to
    be an object or [null]: with status 200, the error is nil exactly for
    such a body. *)
Theorem discarded_answer c ctx method path data resp j :
  answers c ctx method path data resp ->
  resp_StatusCode resp = StatusOK ->
  json_scan (body_text resp) = inl j ->
  (fst (request c ctx method path data discarded) = None
   <-> j = JNull \/ exists m, j = JObj m)
  /\ (forall name, DeleteRoom c ctx name
                   = fst (request c ctx "DELETE" ("rooms/" ++ name) None discarded))
  /\ (forall name, StopRecording c ctx name
                   = fst (request c ctx "POST" ("rooms/" ++ name ++ "/recordings/stop")
                            None discarded)).
Proof.
  intros Hans Hstatus Hscan. split; [|split; reflexivity].
  rewrite (request_answered _ _ _ _ _ _ _ Hans), Hstatus. simpl.
  unfold discarded, json_Unmarshal. rewrite Hscan.
  destruct j; simpl; split; intros Hyp;
    try discriminate; try reflexivity; eauto;
    destruct Hyp as [Hyp|[m Hyp]]; discriminate.
Qed.

End DispatcherMore.

(** ** What is decoded and what is encoded *)

Section Typing.
Context `{GoLibrary}.

Lemma zero_has_type :
  forall t, widths_ok t = true -> has_type t (zero t).
Proof.
  apply (ty_fields_ind
    (fun t => widths_ok t = true -> has_type t (zero t))
    (fun fs => fields_widths_ok fs = true -> have_types fs (zero_fields fs)));
    simpl; auto.
  - intros w Hw. apply Z.ltb_lt in Hw.
    pose proof (Z.pow_pos_nonneg 2 (w - 1)). lia.
  - intros name t IHt key omit rest IHrest Hok.
    apply andb_prop in Hok as [Ht Hrest]. auto.
Qed.

(** The elements of a decoded array are values of the element type. *)
Lemma decode_array_has_type (t : ty) (dec : json -> val -> val * outcome) (z : val) :
  (forall j x, has_type t x -> has_type t (fst (dec j x))) ->
  has_type t z ->
  forall l old,
    Forall (has_type t) old ->
    Forall (has_type t) (fst (decode_array dec z l old)).
Proof.
  intros Hdec Hz l. induction l as [|j l IH]; intros old Hold; simpl; [constructor|].
  assert (has_type t (match old with x :: _ => x | [] => z end)) as Hcur
    by (destruct Hold; assumption).
  assert (Forall (has_type t) (tl old)) as Htl
    by (destruct Hold; simpl; auto).
  specialize (Hdec j _ Hcur).
  destruct (dec j _) as [v o]. simpl in Hdec.
  specialize (IH _ Htl).
  destruct (decode_array dec z l (tl old)) as [vs o'].
  destruct o; simpl; constructor; auto.
Qed.

(** The fields of a decoded object are values of the field types, when
    each decoder keeps the type of its field. *)
Lemma decode_object_has_type (fs : fields) :
  (forall cur i dec old j,
      have_types fs cur ->
      nth_error (decoders fs) i = Some dec -> nth_error cur i = Some old ->
      have_types fs (update i (fst (dec j old)) cur)) ->
  forall m cur,
    have_types fs cur ->
    have_types fs (fst (decode_object fs (decoders fs) m cur)).
Proof.
  intros Hfield m. induction m as [|[k j] m IH]; intros cur Hcur; simpl; [exact Hcur|].
  destruct (field_index fs k) as [i|]; [|auto].
  destruct (nth_error (decoders fs) i) as [dec|] eqn:Hdec; [|auto].
  destruct (nth_error cur i) as [old|] eqn:Hold; [|auto].
  specialize (Hfield cur i dec old j Hcur Hdec Hold).
  destruct (dec j old) as [v o]. simpl in Hfield.
  specialize (IH _ Hfield).
  destruct (decode_object fs (decoders fs) m (update i v cur)) as [r o'].
  destruct o; simpl; auto.
Qed.

(** Decoding keeps the type of the destination: whatever the JSON value,
    and whether or not it fits, what the destination holds afterwards is a
    value of its type. *)
Lemma unmarshal_has_type :
  forall t, widths_ok t = true ->
    forall j old, has_type t old -> has_type t (fst (unmarshal t j old)).
Proof.
  apply (ty_fields_ind
    (fun t => widths_ok t = true ->
       forall j old, has_type t old -> has_type t (fst (unmarshal t j old)))
    (fun fs => fields_widths_ok fs = true ->
       forall cur i dec old j,
         have_types fs cur ->
         nth_error (decoders fs) i = Some dec -> nth_error cur i = Some old ->
         have_types fs (update i (fst (dec j old)) cur))).
  - intros _ j old Hold. destruct j; simpl; auto.
  - intros _ j old Hold. destruct j; simpl; auto.
  - intros w _ j old Hold. destruct j; simpl; auto.
    destruct ((- 2 ^ (w - 1) <=? z) && (z <? 2 ^ (w - 1))) eqn:Hrange; simpl; auto.
    apply andb_prop in Hrange as [Hlo Hhi].
    apply Z.leb_le in Hlo. apply Z.ltb_lt in Hhi. lia.
  - intros _ j old Hold. destruct j; simpl; auto.
    destruct (Time_UnmarshalJSON s); simpl; auto.
  - intros _ j old Hold. destruct j; simpl; auto.
  - intros _ j old Hold. destruct j; simpl; auto.
  - intros t IH Hok j old Hold. simpl in Hok.
    assert (has_type t (match old with VPtr x => x | _ => zero t end)) as Hcur.
    { destruct old; try contradiction; [now apply zero_has_type|exact Hold]. }
    destruct j; simpl; auto;
      match goal with
      | |- context [unmarshal t ?j ?x] =>
          specialize (IH Hok j x Hcur); destruct (unmarshal t j x); exact IH
      end.
  - intros t IH Hok j old Hold. simpl in Hok.
    destruct j; simpl; auto.
    assert (Forall (has_type t) (match old with VSlice xs => xs | _ => [] end)) as Hxs.
    { destruct old; try contradiction; [constructor|exact Hold]. }
    pose proof (decode_array_has_type t (unmarshal t) (zero t) (IH Hok)
                  (zero_has_type t Hok) elems _ Hxs) as Hall.
    destruct (decode_array (unmarshal t) (zero t) elems _). exact Hall.
  - intros fs IH Hok j old Hold. simpl in Hok.
    destruct j; simpl; auto.
    assert (have_types fs (match old with VStruct xs => xs | _ => zero_fields fs end)) as Hxs.
    { destruct old; try contradiction; exact Hold. }
    pose proof (decode_object_has_type fs (IH Hok) members _ Hxs) as Hall.
    destruct (decode_object fs (decoders fs) members _). exact Hall.
  - intros _ cur i dec old j _ Hdec. destruct i; discriminate.
  - intros name t IHt key omit rest IHrest Hok cur i dec old j Hcur Hdec Hold.
    simpl in Hok. apply andb_prop in Hok as [Hokt Hokrest].
    destruct cur as [|v cur]; [contradiction|]. destruct Hcur as [Hv Hcur].
    destruct i as [|i]; simpl in Hdec, Hold |- *.
    + injection Hdec as <-. injection Hold as <-. split; auto.
    + split; [exact Hv|]. eapply IHrest; eauto.
Qed.

Lemma mapM_total {A B : Type} (P : A -> Prop) (f : A -> result B) (l : list A) :
  (forall x, P x -> exists y, f x = inl y) ->
  Forall P l ->
  exists ys, mapM f l = inl ys.
Proof.
  intros Hf Hall. induction Hall as [|x l Hx Hl IH]; simpl; [eauto|].
  destruct (Hf x Hx) as (y & ->). destruct IH as (ys & ->). eauto.
Qed.

(** The encoding of a value of a type of strings, booleans, integers,
    pointers, slices and structs of them never fails. *)
Lemma marshal_total :
  forall t, encodable t = true ->
    forall v, has_type t v -> exists j, marshal t v = inl j.
Proof.
  apply (ty_fields_ind
    (fun t => encodable t = true ->
       forall v, has_type t v -> exists j, marshal t v = inl j)
    (fun fs => fields_encodable fs = true ->
       forall l, have_types fs l -> exists m, marshal_fields fs l = inl m)).
  - intros _ v Hv. destruct v; try contradiction. simpl. eauto.
  - intros _ v Hv. destruct v; try contradiction. simpl. eauto.
  - intros w _ v Hv. destruct v; try contradiction. simpl. eauto.
  - discriminate.
  - discriminate.
  - discriminate.
  - intros t IH Hok v Hv. simpl in Hok. destruct v; try contradiction; simpl; eauto.
  - intros t IH Hok v Hv. simpl in Hok. destruct v; try contradiction; simpl; eauto.
    destruct (mapM_total (has_type t) (marshal t) elems (IH Hok) Hv) as (js & ->). eauto.
  - intros fs IH Hok v Hv. simpl in Hok. destruct v; try contradiction. simpl.
    destruct (IH Hok flds Hv) as (m & ->). eauto.
  - intros _ l Hl. destruct l; try contradiction. simpl. eauto.
  - intros name t IHt key omit rest IHrest Hok l Hl.
    simpl in Hok. apply andb_prop in Hok as [Hokt Hokrest].
    destruct l as [|v l]; [contradiction|]. destruct Hl as [Hv Hl].
    simpl. destruct (IHrest Hokrest l Hl) as (m & ->).
    destruct (omit && isEmptyValue v); [eauto|].
    destruct (IHt Hokt v Hv) as (j & ->). eauto.
Qed.

Lemma marshal_fields_zero (fs : fields) :
  omitted_when_zero fs = true -> marshal_fields fs (zero_fields fs) = inl [].
Proof.
  induction fs as [|name t key omit rest IH]; simpl; [reflexivity|].
  intros Hom. apply andb_prop in Hom as [Hhere Hrest].
  rewrite Hhere. auto.
Qed.

(** A zero record all of whose fields say [omitempty], none of them a
    struct or a time, is encoded as the empty object. *)
Theorem marshal_zero_record (fs : fields) :
  omitted_when_zero fs = true ->
  marshal (TStruct fs) (zero (TStruct fs)) = inl (JObj []).
Proof.
  intros Hom.
  change (match marshal_fields fs (zero_fields fs) with
          | inl m => inl (JObj m)
          | inr e => inr e
          end = inl (JObj [])).
  now rewrite marshal_fields_zero.
Qed.

(** A request to create a room with a name and nothing else is encoded as
    an object with the one member [name]. *)
Theorem CreateRoomRequest_name_only (name : string) :
  marshal CreateRoomRequest (VStruct [String_ name; VString ""; VNil])
  = inl (JObj [("name", JStr (to_valid_utf8 0 name))]).
Proof. reflexivity. Qed.

End Typing.

Section Responses.
Context `{GoLibrary} `{ErrorsFile}.

(** The destination after [request]: as it was given, or, for an answer
    with status 200, as [json.Unmarshal] left it. *)
Lemma request_destination c ctx method path data result_ :
  snd (request c ctx method path data result_) = result_
  \/ exists resp,
       answers c ctx method path data resp
       /\ resp_StatusCode resp = StatusOK
       /\ snd (request c ctx method path data result_)
          = fst (json_Unmarshal (body_text resp) result_).
Proof.
  destruct (answers_or_not c ctx method path data) as [(resp & Hans)|Hno].
  - rewrite (request_answered _ _ _ _ _ _ _ Hans).
    destruct (resp_StatusCode resp =? StatusOK) eqn:Hstatus; simpl; [|now left].
    right. exists resp. apply Z.eqb_eq in Hstatus.
    split; [exact Hans|]. split; [exact Hstatus|].
    now destruct (json_Unmarshal (body_text resp) result_) as [r' [e|]].
  - left. destruct (request_unanswered c ctx method path data result_ Hno)
      as (format & arg & -> & _). reflexivity.
Qed.

(** An operation always returns a pointer that is not nil, to a value of
    the type of its response, with or without an error. *)
Theorem call_returns_a_record c ctx method path data T :
  widths_ok T = true ->
  exists v, fst (call c ctx method path data T) = VPtr v /\ has_type T v.
Proof.
  intros Hok. unfold call.
  destruct (request_destination c ctx method path data (Some (TPtr T, VPtr (zero T))))
    as [Hsame|(resp & _ & _ & Hdec)];
    destruct (request c ctx method path data (Some (TPtr T, VPtr (zero T)))) as [err r];
    simpl in *; subst r.
  - exists (zero T). split; [reflexivity|now apply zero_has_type].
  - unfold json_Unmarshal. destruct (json_scan (body_text resp)) as [j|msg]; simpl.
    + pose proof (unmarshal_has_type T Hok j (zero T) (zero_has_type T Hok)) as Hty.
      destruct (unmarshal T j (zero T)) as [x o]. simpl. eauto.
    + exists (zero T). split; [reflexivity|now apply zero_has_type].
Qed.

(** Without an answer of status 200 nothing is decoded: the pointer an
    operation returns beside its error is to the zero record. *)
Theorem call_zero_without_success c ctx method path data T :
  (forall resp, answers c ctx method path data resp -> resp_StatusCode resp <> StatusOK) ->
  fst (call c ctx method path data T) = VPtr (zero T)
  /\ snd (call c ctx method path data T) <> None.
Proof.
  intros Hno. unfold call.
  destruct (answers_or_not c ctx method path data) as [(resp & Hans)|Hnone].
  - rewrite (request_answered _ _ _ _ _ _ _ Hans).
    specialize (Hno resp Hans). apply Z.eqb_neq in Hno. rewrite Hno. simpl.
    split; [reflexivity|discriminate].
  - destruct (request_unanswered c ctx method path data (Some (TPtr T, VPtr (zero T))) Hnone)
      as (format & arg & -> & _). simpl. split; [reflexivity|discriminate].
Qed.

End Responses.

(** ** More of the paths and of the times *)

(** Without a limit above zero and without any other parameter,
    [GetRecordings] asks for the bare path: a limit of zero or below is
    left out like an empty text. *)
Theorem GetRecordings_path_bare (p : GetRecordingsParams) :
  Limit p <= 0 -> EndingBefore p = "" -> StartingAfter p = "" -> RoomName p = "" ->
  GetRecordings_path p = "/v1/recordings".
Proof.
  intros Hlimit Hbefore Hafter Hroom.
  unfold GetRecordings_path, GetRecordings_params.
  rewrite Hbefore, Hafter, Hroom.
  assert ((0 <? Limit p) = false) as -> by (apply Z.ltb_ge; exact Hlimit).
  reflexivity.
Qed.

(** The seconds of [Timestamp] are the whole seconds at or before the
    instant, less than a second before it; and a later instant never has
    an earlier timestamp. *)
Theorem Timestamp_whole_seconds (t t' : Time) :
  Time_ok t -> Time_ok t' ->
  Timestamp t = Int64 (Time_UnixNano t / 1000000000)
  /\ Time_Unix t * 1000000000 <= Time_UnixNano t < (Time_Unix t + 1) * 1000000000
  /\ (Time_UnixNano t <= Time_UnixNano t' -> Time_Unix t <= Time_Unix t').
Proof.
  unfold Time_ok, Timestamp, Int64, Time_Unix, Time_UnixNano. intros Ht Ht'.
  split; [|split].
  - f_equal. f_equal. apply (Z.div_unique _ _ _ (time_nsec t)); lia.
  - lia.
  - lia.
Qed.

(** ** The further facts at work *)

Lemma call_decodes_witness :
  @call Sample.token_library Sample.errors Sample.token_client tt "POST" "meeting-tokens"
    (Some (TPtr CreateMeetingTokenRequest, VPtr (zero CreateMeetingTokenRequest)))
    CreateMeetingTokenResponse
  = (VPtr (VStruct [String_ "eyJhbGciOi"]), None).
Proof.
  apply (@call_decodes Sample.token_library Sample.errors Sample.token_client tt
           "POST" "meeting-tokens" _ CreateMeetingTokenResponse
           {| resp_StatusCode := 200;
              resp_Body := {| read_bytes := Sample.print Sample.token_answer;
                              read_error := None |} |}
           Sample.token_answer).
  - unfold answers. do 3 eexists. repeat split; reflexivity.
  - reflexivity.
  - reflexivity.
  - reflexivity.
Defined.

Lemma call_empty_answer_witness :
  call (Sample.client (Sample.answering 200 "{}")) tt "GET" "rooms/standup" None GetRoomResponse
  = (VPtr (zero GetRoomResponse), None).
Proof.
  apply (call_empty_answer (Sample.client (Sample.answering 200 "{}")) tt "GET"
           "rooms/standup" None GetRoomResponse
           {| resp_StatusCode := 200;
              resp_Body := {| read_bytes := "{}"; read_error := None |} |}).
  - unfold answers. do 3 eexists. repeat split; reflexivity.
  - reflexivity.
  - right. split; [reflexivity|]. eexists. reflexivity.
Defined.

Lemma request_details_parsed_witness :
  request
    (Sample.client (Sample.answering 400 (Sample.print (JObj [("error", JStr "not-found")]))))
    tt "GET" "rooms/standup" None None
  = (Some (ErrorValue
       {| Message := category_of_status 400;
          StatusCode := 400;
          Details := VPtr (VStruct [String_ "not-found"; VNil]);
          RawDetails := Sample.print (JObj [("error", JStr "not-found")]) |}),
     None).
Proof.
  apply (request_details_parsed
           (Sample.client
              (Sample.answering 400 (Sample.print (JObj [("error", JStr "not-found")]))))
           tt "GET" "rooms/standup" None None
           {| resp_StatusCode := 400;
              resp_Body := {| read_bytes := Sample.print (JObj [("error", JStr "not-found")]);
                              read_error := None |} |}
           (JObj [("error", JStr "not-found")])).
  - unfold answers. do 3 eexists. repeat split; reflexivity.
  - discriminate.
  - reflexivity.
  - reflexivity.
Defined.

Lemma request_other_2xx_witness :
  exists e,
    request (Sample.client (Sample.answering 201 "{}")) tt "POST" "rooms" None None
    = (Some (ErrorValue e), None)
    /\ Message e = ErrUnexpected
    /\ StatusCode e = 201
    /\ RawDetails e = "{}".
Proof.
  apply (request_other_2xx (Sample.client (Sample.answering 201 "{}")) tt "POST" "rooms"
           None None
           {| resp_StatusCode := 201;
              resp_Body := {| read_bytes := "{}"; read_error := None |} |}).
  - unfold answers. do 3 eexists. repeat split; reflexivity.
  - simpl. lia.
Defined.

Lemma request_ignores_read_error_witness :
  request (Sample.client (Sample.answering 200 "{}")) tt "GET" "rooms" None
    (Some (TPtr ListRoomsResponse, VPtr (zero ListRoomsResponse)))
  = request (Sample.client (Sample.breaking_off 200 "{}")) tt "GET" "rooms" None
      (Some (TPtr ListRoomsResponse, VPtr (zero ListRoomsResponse))).
Proof.
  apply (request_ignores_read_error
           (Sample.client (Sample.answering 200 "{}"))
           (Sample.client (Sample.breaking_off 200 "{}"))
           tt tt "GET" "GET" "rooms" "rooms" None None _
           {| resp_StatusCode := 200;
              resp_Body := {| read_bytes := "{}"; read_error := None |} |}
           {| resp_StatusCode := 200;
              resp_Body := {| read_bytes := "{}"; read_error := Some "unexpected EOF" |} |}).
  - unfold answers. do 3 eexists. repeat split; reflexivity.
  - unfold answers. do 3 eexists. repeat split; reflexivity.
  - reflexivity.
  - reflexivity.
Defined.

Lemma request_path_unparsed_witness :
  request (Sample.client Sample.echoing) tt "GET" ("rooms/" ++ Sample.two_lines) None None
  = (Some (errorString
       ("daily: failed to parse request path: "
        ++ "net/url: invalid control character in URL")),
     None).
Proof.
  apply (request_path_unparsed (Sample.client Sample.echoing) tt "GET"
           ("rooms/" ++ Sample.two_lines) None None).
  reflexivity.
Defined.

Lemma request_data_unencoded_witness :
  request (Sample.client Sample.echoing) tt "POST" "rooms"
    (Some (TTime, VTime Sample.year_10000)) None
  = (Some (errorString
       ("daily: failed to parse request data: "
        ++ "json: error calling MarshalJSON for type time.Time: "
        ++ "Time.MarshalJSON: year outside of range [0,9999]")),
     None).
Proof.
  apply (request_data_unencoded (Sample.client Sample.echoing) tt "POST" "rooms"
           (Some (TTime, VTime Sample.year_10000)) None "rooms").
  - reflexivity.
  - discriminate.
  - reflexivity.
Defined.

Lemma request_transport_failure_witness :
  request (Sample.client Sample.refusing) tt "GET" "rooms" None None
  = (Some (errorString ("daily: request failed: " ++ "dial tcp: connection refused")), None).
Proof.
  eapply (request_transport_failure (Sample.client Sample.refusing) tt "GET" "rooms"
            None None);
    reflexivity.
Defined.

Lemma discarded_answer_witness :
  fst (request (Sample.client (Sample.answering 200 "[]")) tt "DELETE" "rooms/standup"
         None discarded) = None
  <-> JArr [] = JNull \/ exists m, JArr [] = JObj m.
Proof.
  apply (discarded_answer (Sample.client (Sample.answering 200 "[]")) tt "DELETE"
           "rooms/standup" None
           {| resp_StatusCode := 200;
              resp_Body := {| read_bytes := "[]"; read_error := None |} |} (JArr [])).
  - unfold answers. do 3 eexists. repeat split; reflexivity.
  - reflexivity.
  - reflexivity.
Defined.

(** The request types of the package are all encodable. *)
Example request_types_encodable :
  forallb encodable
    [TPtr ListRoomsRequest; TPtr CreateRoomRequest; TPtr UpdateRoomRequest;
     TPtr CreateMeetingTokenRequest; TPtr StartRecordingRequest;
     struct { field "Properties" (TPtr Config) "Properties" always }] = true.
Proof. reflexivity. Qed.

(** The records that are the empty object when zero. *)
Example records_omitted_when_zero :
  forallb (fun t => omitted_when_zero (fields_of t))
    [Config; DomainConfig; Permissions; RoomConfig; MeetingToken; ListRoomsRequest;
     CreateRoomRequest; UpdateRoomRequest; CreateMeetingTokenRequest;
     CreateMeetingTokenResponse] = true.
Proof. reflexivity. Qed.

Lemma marshal_zero_record_witness :
  marshal UpdateRoomRequest (zero UpdateRoomRequest) = inl (JObj []).
Proof.
  apply (marshal_zero_record (fields_of UpdateRoomRequest)). reflexivity.
Defined.

Lemma call_returns_a_record_witness :
  exists v,
    fst (call (Sample.client (Sample.answering 200 "[]")) tt "GET" "rooms/standup" None
           GetRoomResponse) = VPtr v
    /\ has_type GetRoomResponse v.
Proof.
  apply (call_returns_a_record (Sample.client (Sample.answering 200 "[]")) tt "GET"
           "rooms/standup" None GetRoomResponse).
  reflexivity.
Defined.

Lemma call_zero_without_success_witness :
  fst (call (Sample.client Sample.refusing) tt "GET" "rooms/standup" None GetRoomResponse)
  = VPtr (zero GetRoomResponse)
  /\ snd (call (Sample.client Sample.refusing) tt "GET" "rooms/standup" None GetRoomResponse)
     <> None.
Proof.
  apply (call_zero_without_success (Sample.client Sample.refusing) tt "GET" "rooms/standup"
           None GetRoomResponse).
  intros resp (rel & body & req & Hparse & Hbody & Hreq & Hdo). discriminate.
Defined.

Lemma GetRecordings_path_bare_witness :
  GetRecordings_path
    {| Limit := -3; EndingBefore := ""; StartingAfter := ""; RoomName := "" |}
  = "/v1/recordings".
Proof.
  apply (GetRecordings_path_bare
           {| Limit := -3; EndingBefore := ""; StartingAfter := ""; RoomName := "" |});
    simpl; (lia || reflexivity).
Defined.

Lemma GetRecordings_path_limit_room_witness :
  GetRecordings_path
    {| Limit := 25; EndingBefore := ""; StartingAfter := ""; RoomName := "standup" |}
  = with_query "/v1/recordings" [("limit", itoa 25); ("room_name", "standup")].
Proof.
  apply (GetRecordings_path_limit_room 25 "standup"); [lia|discriminate].
Defined.

Lemma Timestamp_whole_seconds_witness :
  Timestamp (time_Unix (-1) 500000000) = Int64 (-500000000 / 1000000000)
  /\ Time_Unix (time_Unix (-1) 500000000) * 1000000000
     <= Time_UnixNano (time_Unix (-1) 500000000)
     < (Time_Unix (time_Unix (-1) 500000000) + 1) * 1000000000
  /\ (Time_UnixNano (time_Unix (-1) 500000000) <= Time_UnixNano (time_Unix 0 0) ->
      Time_Unix (time_Unix (-1) 500000000) <= Time_Unix (time_Unix 0 0)).
Proof.
  apply (Timestamp_whole_seconds (time_Unix (-1) 500000000) (time_Unix 0 0));
    unfold Time_ok; simpl; lia.
Defined.

(** ** The stages of a call *)

Section StagesFacts.
Context `{GoLibrary} `{ErrorsFile}.

(** What [request] does with an answer is [respond]. *)
Lemma respond_answered (resp : Response) (result_ : iface) :
  (let '(respBody, _) := ioutil_ReadAll (resp_Body resp) in
   if negb (resp_StatusCode resp =? StatusOK) then
     let msg :=
       if resp_StatusCode resp =? StatusBadRequest then ErrBadRequest
       else if resp_StatusCode resp =? StatusUnauthorized then ErrUnauthorized
       else if resp_StatusCode resp =? StatusTooManyRequests then ErrTooManyRequests
       else if resp_StatusCode resp =? StatusInternalServerError then ErrInternal
       else ErrUnexpected in
     let details :=
       match json_Unmarshal respBody (Some (TPtr ErrorDetails, VPtr (zero ErrorDetails))) with
       | (_, Some _) => VNil
       | (Some (_, d), None) => d
       | (None, None) => VNil
       end in
     (Some (ErrorValue {| Message := msg;
                          StatusCode := resp_StatusCode resp;
                          Details := details;
                          RawDetails := respBody |}),
      result_)
   else
     match json_Unmarshal respBody result_ with
     | (result', Some err) =>
         (Some (ErrorValue {| Message := ErrParseError ++ ": " ++ json_error_text err;
                              StatusCode := resp_StatusCode resp;
                              Details := VNil;
                              RawDetails := respBody |}),
          result')
     | (result', None) => (None, result')
     end)
  = respond resp result_.
Proof.
  unfold respond, ioutil_ReadAll, body_text.
  rewrite category_of_status_switch.
  destruct (negb (resp_StatusCode resp =? StatusOK)); [|reflexivity].
  now destruct (json_Unmarshal (read_bytes (resp_Body resp)) _) as [[[t d]|] [e|]].
Qed.

(** [request], stage by stage: the path is parsed, the data encoded, the
    request built, and one request is given to the transport; a stage that
    fails ends the call with its own text. *)
Lemma request_staged c ctx method path data result_ :
  request c ctx method path data result_ =
    match url_Parse path with
    | inr e => (Some (errorString ("daily: failed to parse request path: " ++ e)), result_)
    | inl rel =>
        match encoded data with
        | inr e =>
            (Some (errorString ("daily: failed to parse request data: " ++ e)), result_)
        | inl body =>
            match http_NewRequest_error method (url_of c rel) with
            | Some e =>
                (Some (errorString ("daily: failed to build request: " ++ e)), result_)
            | None => send c ctx method (url_of c rel) body result_
            end
        end
    end.
Proof.
  unfold request, encoded, url_of, fmt_Errorf.
  destruct (url_Parse path) as [rel|e1];
    [|now rewrite (Sprintf_s_at_end "daily: failed to parse request path: ")].
  destruct data as [d|];
    [destruct (json_Marshal (Some d)) as [b|e2];
     [|now rewrite (Sprintf_s_at_end "daily: failed to parse request data: ")]|];
    unfold http_NewRequest;
    (destruct (http_NewRequest_error method _) as [e3|];
     [now rewrite (Sprintf_s_at_end "daily: failed to build request: ")|]);
    unfold send, Header_Set, WithContext; simpl;
    (destruct (HTTPClient c _) as [resp|e4];
     [|now rewrite (Sprintf_s_at_end "daily: request failed: ")]);
    apply respond_answered.
Qed.

Lemma call_returned c ctx method path data T :
  call c ctx method path data T
  = returned (request c ctx method path data (Some (TPtr T, VPtr (zero T)))).
Proof.
  unfold call, returned.
  now destruct (request c ctx method path data (Some (TPtr T, VPtr (zero T)))).
Qed.

(** C5, as the code has it.  An error of [request] is of one of two
    forms.  When the transport answered, it is an [Error] with the status
    and the text of the body; for a status other than 200 it has the
    category of the status and the details decoded from the body, or nil
    details when they do not decode; for status 200 it has the parse-error
    category, the text of the decoding error, and no details.  When there
    was no answer it is a formatted text and nothing else, and which text
    says which step failed: the parsing of the path, the encoding of the
    data, the building of the request, or the call of the transport. *)
Theorem request_error_forms c ctx method path data result_ err :
  fst (request c ctx method path data result_) = Some err ->
  (exists resp e,
      answers c ctx method path data resp
      /\ err = ErrorValue e
      /\ StatusCode e = resp_StatusCode resp
      /\ RawDetails e = body_text resp
      /\ (resp_StatusCode resp <> StatusOK ->
          Message e = category_of_status (resp_StatusCode resp)
          /\ (forall t d,
                json_Unmarshal (body_text resp)
                  (Some (TPtr ErrorDetails, VPtr (zero ErrorDetails)))
                = (Some (t, d), None) ->
                Details e = d)
          /\ (snd (json_Unmarshal (body_text resp)
                     (Some (TPtr ErrorDetails, VPtr (zero ErrorDetails)))) <> None ->
              Details e = VNil))
      /\ (resp_StatusCode resp = StatusOK ->
          Details e = VNil
          /\ exists cause,
               snd (json_Unmarshal (body_text resp) result_) = Some cause
               /\ Message e = ErrParseError ++ ": " ++ json_error_text cause))
  \/ ((forall resp, ~ answers c ctx method path data resp)
      /\ ((exists e,
             url_Parse path = inr e
             /\ err = errorString ("daily: failed to parse request path: " ++ e))
          \/ (exists rel e,
                url_Parse path = inl rel
                /\ encoded data = inr e
                /\ err = errorString ("daily: failed to parse request data: " ++ e))
          \/ (exists rel body e,
                url_Parse path = inl rel
                /\ encoded data = inl body
                /\ http_NewRequest_error method (url_of c rel) = Some e
                /\ err = errorString ("daily: failed to build request: " ++ e))
          \/ (exists rel body req e,
                url_Parse path = inl rel
                /\ encoded data = inl body
                /\ http_NewRequest method (url_of c rel) body = inl req
                /\ HTTPClient c (WithContext (Header_Set "User-Agent" (UserAgent c) req) ctx)
                   = inr e
                /\ err = errorString ("daily: request failed: " ++ e)))).
Proof.
  intros Herr.
  destruct (answers_or_not c ctx method path data) as [(resp & Hans)|Hno].
  - left. rewrite (request_answered _ _ _ _ _ _ _ Hans) in Herr.
    destruct (resp_StatusCode resp =? StatusOK) eqn:Hstatus; simpl in Herr.
    + apply Z.eqb_eq in Hstatus.
      destruct (json_Unmarshal (body_text resp) result_) as [r' [cause|]] eqn:Hdecode;
        simpl in Herr; [|discriminate].
      injection Herr as <-. exists resp. eexists.
      split; [exact Hans|]. split; [reflexivity|]. simpl.
      split; [reflexivity|]. split; [reflexivity|].
      split; [congruence|]. intros _. split; [reflexivity|].
      exists cause. split; [try rewrite Hdecode; reflexivity|reflexivity].
    + apply Z.eqb_neq in Hstatus.
      injection Herr as <-. exists resp. eexists.
      split; [exact Hans|]. split; [reflexivity|]. simpl.
      split; [reflexivity|]. split; [reflexivity|].
      split; [|congruence]. intros _. split; [reflexivity|].
      destruct (json_Unmarshal (body_text resp) _) as [[[t0 d0]|] [e0|]]; simpl;
        split; intros; congruence.
  - right. split; [exact Hno|].
    rewrite request_staged in Herr. unfold answers in Hno.
    destruct (url_Parse path) as [rel|e1] eqn:Hparse.
    2:{ left. exists e1. cbn [fst] in Herr. split; congruence. }
    destruct (encoded data) as [body|e2] eqn:Hbody.
    2:{ right; left. exists rel, e2. cbn [fst] in Herr. repeat split; congruence. }
    destruct (http_NewRequest_error method (url_of c rel)) as [e3|] eqn:Hbuild.
    { right; right; left. exists rel, body, e3. cbn [fst] in Herr. repeat split; congruence. }
    right; right; right.
    assert (http_NewRequest method (url_of c rel) body
            = inl {| req_Method := method; req_URL := url_of c rel; req_Body := body;
                     req_Header := []; req_Context := context_Background |}) as Hreq
      by (unfold http_NewRequest; now rewrite Hbuild).
    unfold send in Herr.
    destruct (HTTPClient c _) as [resp|e4] eqn:Hdo.
    + exfalso. apply (Hno resp). eexists rel, body, _.
      split; [reflexivity|]. split; [exact Hbody|]. split; [exact Hreq|]. exact Hdo.
    + eexists rel, body, _, e4. cbn [fst] in Herr.
      split; [reflexivity|]. split; [reflexivity|]. split; [exact Hreq|].
      split; [exact Hdo|]. congruence.
Qed.


(** The request that reaches the transport.  When the path parses, the
    data is encoded and the request is built, [request] is the sending of
    one request with the method and the context of the call, the URL of the
    path resolved against the base, the one header [User-Agent] of the
    client, and the encoding of the data as its body, or no body when the
    data is nil. *)
Theorem request_as_sent c ctx method path data result_ rel body :
  url_Parse path = inl rel ->
  encoded data = inl body ->
  http_NewRequest_error method (url_of c rel) = None ->
  request c ctx method path data result_ = send c ctx method (url_of c rel) body result_
  /\ match data with
     | None => body = None
     | Some _ => exists text, json_Marshal data = inl text /\ body = Some text
     end.
Proof.
  intros Hparse Hbody Hbuild. split.
  - now rewrite request_staged, Hparse, Hbody, Hbuild.
  - unfold encoded in Hbody. destruct data as [d|].
    + destruct (json_Marshal (Some d)) as [text|]; [|discriminate].
      injection Hbody as <-. now exists text.
    + now injection Hbody as <-.
Qed.

(** A nil pointer given as the request of an operation is not nil data:
    [request] sends a body, the text of [null]; and this is what
    [CreateRoom] sends for a nil request. *)
Theorem nil_request_is_sent_as_null c ctx method path T result_ rel :
  url_Parse path = inl rel ->
  http_NewRequest_error method (url_of c rel) = None ->
  request c ctx method path (Some (TPtr T, VNil)) result_
  = send c ctx method (url_of c rel) (Some (json_print JNull)) result_
  /\ (method = "POST" -> path = "rooms" ->
      CreateRoom c ctx VNil
      = returned (send c ctx "POST" (url_of c rel) (Some (json_print JNull))
                    (Some (TPtr CreateRoomResponse, VPtr (zero CreateRoomResponse))))).
Proof.
  intros Hparse Hbuild. split.
  - now rewrite request_staged, Hparse, Hbuild.
  - intros -> ->. unfold CreateRoom.
    now rewrite call_returned, request_staged, Hparse, Hbuild.
Qed.

Lemma marshal_Properties (req : val) (j : json) :
  marshal (TPtr Config) req = inl j ->
  json_Marshal (SetDomainConfig_data req) = inl (json_print (JObj [("Properties", j)])).
Proof.
  intros Hj. unfold SetDomainConfig_data, json_Marshal.
  change (marshal _ (VStruct [req]))
    with (match
            match marshal (TPtr Config) req with
            | inl j => inl [("Properties", j)]
            | inr e => inr e
            end
          with
          | inl m => inl (JObj m)
          | inr e => inr e
          end).
  now rewrite Hj.
Qed.

(** [SetDomainConfig] sends one request, a POST whose body is an object
    with the one member [Properties]: the encoding of the configuration,
    [null] for a nil one. *)
Theorem SetDomainConfig_as_sent c ctx req j rel :
  marshal (TPtr Config) req = inl j ->
  url_Parse "" = inl rel ->
  http_NewRequest_error "POST" (url_of c rel) = None ->
  SetDomainConfig c ctx req
  = returned (send c ctx "POST" (url_of c rel)
                (Some (json_print (JObj [("Properties", j)])))
                (Some (TPtr DomainConfig, VPtr (zero DomainConfig)))).
Proof.
  intros Hj Hparse Hbuild.
  change (SetDomainConfig c ctx req)
    with (call c ctx "POST" "" (SetDomainConfig_data req) DomainConfig).
  rewrite call_returned, request_staged, Hparse.
  unfold encoded. change (SetDomainConfig_data req) with (Some (
    struct { field "Properties" (TPtr Config) "Properties" always }, VStruct [req])).
  cbv iota. fold (SetDomainConfig_data req).
  now rewrite (marshal_Properties req j Hj), Hbuild.
Qed.


End StagesFacts.

(** ** The stages at work *)

(** A call answered with 400 and details that decode: the [Error] has
    the category, the status, the details and the text of the body. *)
Lemma request_error_forms_witness :
  fst (request
         (Sample.client (Sample.answering 400 (Sample.print (JObj [("error", JStr "not-found")]))))
         tt "GET" "rooms/standup" None None)
  = Some (ErrorValue
       {| Message := "bad request";
          StatusCode := 400;
          Details := VPtr (VStruct [String_ "not-found"; VNil]);
          RawDetails := Sample.print (JObj [("error", JStr "not-found")]) |})
  /\ exists resp e,
      answers
        (Sample.client (Sample.answering 400 (Sample.print (JObj [("error", JStr "not-found")]))))
        tt "GET" "rooms/standup" None resp
      /\ ErrorValue
           {| Message := "bad request";
              StatusCode := 400;
              Details := VPtr (VStruct [String_ "not-found"; VNil]);
              RawDetails := Sample.print (JObj [("error", JStr "not-found")]) |}
         = ErrorValue e
      /\ StatusCode e = resp_StatusCode resp
      /\ RawDetails e = body_text resp.
Proof.
  split; [reflexivity|].
  destruct (request_error_forms
              (Sample.client
                 (Sample.answering 400 (Sample.print (JObj [("error", JStr "not-found")]))))
              tt "GET" "rooms/standup" None None _ eq_refl)
    as [(resp & e & Hans & He & Hstatus & Hraw & _)|(Hno & _)].
  - exists resp, e. auto.
  - exfalso. eapply Hno. unfold answers. do 3 eexists. repeat split; reflexivity.
Defined.


Lemma request_as_sent_witness :
  request (Sample.client Sample.echoing) tt "POST" "rooms"
    (Some (TPtr CreateRoomRequest, VPtr Sample.create_room)) None
  = send (Sample.client Sample.echoing) tt "POST" "https://api.daily.co/v1/rooms"
      (Some (Sample.print
               (JObj [("name", JStr "");
                      ("properties",
                       JObj [("nbf", JInt 0); ("start_video_off", JBool false);
                             ("enable_recording", JStr "")])])))
      None
  /\ exists text,
       json_Marshal (Some (TPtr CreateRoomRequest, VPtr Sample.create_room)) = inl text
       /\ Some (Sample.print
                  (JObj [("name", JStr "");
                         ("properties",
                          JObj [("nbf", JInt 0); ("start_video_off", JBool false);
                                ("enable_recording", JStr "")])]))
          = Some text.
Proof.
  apply (request_as_sent (Sample.client Sample.echoing) tt "POST" "rooms"
           (Some (TPtr CreateRoomRequest, VPtr Sample.create_room)) None "rooms");
    reflexivity.
Defined.

Lemma nil_request_is_sent_as_null_witness :
  CreateRoom (Sample.client Sample.echoing) tt VNil
  = returned (send (Sample.client Sample.echoing) tt "POST" "https://api.daily.co/v1/rooms"
                (Some "null")
                (Some (TPtr CreateRoomResponse, VPtr (zero CreateRoomResponse)))).
Proof.
  apply (proj2 (nil_request_is_sent_as_null (Sample.client Sample.echoing) tt "POST" "rooms"
                  CreateRoomRequest None "rooms" eq_refl eq_refl));
    reflexivity.
Defined.

Lemma SetDomainConfig_as_sent_witness :
  SetDomainConfig (Sample.client (Sample.answering 200 "{}")) tt VNil
  = returned (send (Sample.client (Sample.answering 200 "{}")) tt "POST"
                "https://api.daily.co/v1/"
                (Some (Sample.print (JObj [("Properties", JNull)])))
                (Some (TPtr DomainConfig, VPtr (zero DomainConfig)))).
Proof.
  apply (SetDomainConfig_as_sent (Sample.client (Sample.answering 200 "{}")) tt VNil JNull "");
    reflexivity.
Defined.


(** One second past the last second an int64 counts is the first one it
    counts. *)
Lemma times_on_the_wire_witness :
  - 2 ^ 63 <= 9223372036854775807 < 2 ^ 63
  /\ Time_Unix (time_Unix 9223372036854775807 1000000000)
     = wrap64 (9223372036854775807 + 1000000000 / 1000000000)
  /\ wrap64 (9223372036854775807 + 1000000000 / 1000000000) = - 9223372036854775808.
Proof.
  split; [lia|]. split; [|reflexivity].
  apply (proj1 (proj2 (proj2 (proj2 (@times_on_the_wire Sample.library))))). lia.
Defined.
